(** * electron-panel, main process: panel registry and message dispatch

    A shallow embedding of [lib/main.js].  The module keeps one global
    object, [_winID2panelIDs], from BrowserWindow ids to arrays of panel
    ids, and layers a request/reply protocol on top of
    [webContents.send] with the session bookkeeping of electron-ipc-plus.

    Conventions of the embedding.
    - A BrowserWindow is identified with its numeric [id]; the
      [webContents] of a window (the [event.sender] of the messages that
      window's renderer sends) is identified with the window as well.
    - The windowing system is the component [windows] of the state: the
      set of BrowserWindows that currently exist.  Every one of them was
      announced by [browser-window-created], so carries the one-time
      [closed] observer of the module.
    - Everything the module does to the outside (console output, messages
      handed to a [webContents], calls of functions it was given) is
      appended to the [effects] of the state, in program order. *)

From stdpp Require Import gmap strings list fin_maps sorting pretty.

Local Open Scope Z_scope.

(** ** JavaScript values that travel through the argument lists *)

(** The object built by [ipcPlus.option({...})]: the three properties this
    module ever writes or reads.  An absent property is [None]; for
    [waitForReply], which the code only tests for truthiness, absent and
    falsy are both [false]. *)
Record options := mkOptions {
  opt_sessionId : option string;
  opt_waitForReply : bool;
  opt_timeout : option Z
}.

Inductive value :=
| VUndefined
| VNull
| VBool (b : bool)
| VNumber (n : Z)
| VString (s : string)
| VFunction (f : N)          (* a function supplied by the caller, by name *)
| VOption (o : options)      (* an object marked by ipcPlus.option *)
| VObject (o : N)            (* any other object that converts to a string *)
| VErrorNoPanel (panelID : string) (message : value)
| VSymbol (d : N)            (* a Symbol *)
| VBareObject (o : N).       (* an object with no conversion to a primitive,
                                such as Object.create(null) *)

(** Modelled from the spec: the class [ErrorNoPanel] of [./common], which is
    not part of the sources at hand.  The error payload is "an object
    identifying the error kind no such panel, carrying panelID and
    messageName"; [new ErrorNoPanel(panelID, message)] is the constructor
    [VErrorNoPanel] above. *)
Definition ErrorNoPanel (panelID : string) (message : value) : value :=
  VErrorNoPanel panelID message.

(** [typeof v] *)
Definition typeof (v : value) : string :=
  match v with
  | VUndefined => "undefined"
  | VNull => "object"
  | VBool _ => "boolean"
  | VNumber _ => "number"
  | VString _ => "string"
  | VFunction _ => "function"
  | VOption _ => "object"
  | VObject _ => "object"
  | VErrorNoPanel _ _ => "object"
  | VSymbol _ => "symbol"
  | VBareObject _ => "object"
  end.

(** Whether the template literal [`${v}`] yields a string.  The literal
    converts its value with ToString, which throws a TypeError for a Symbol
    and for an object that has no conversion to a primitive; every other
    value has a string form. *)
Definition template_converts (v : value) : bool :=
  match v with
  | VSymbol _ => false
  | VBareObject _ => false
  | _ => true
  end.

(** ** Sessions (electron-ipc-plus) *)

(** The two kinds of function this module hands to [_newSession]: a function
    the caller of [panel.send] supplied, and the closure built at
    lines 144-155, which captures [sender] and [opts]. *)
Inductive callback :=
| UserReply (f : N)
| RelayReply (sender : N) (opts : options).

Record session := mkSession {
  session_id : string;
  session_message : value;
  session_owner : string;
  session_callback : callback;
  session_timeout : option Z;
  session_win : option N
}.

(** ** Diagnostics and effects *)

(** The six [console.error] lines of the module, by their template. *)
Inductive diagnostic :=
| MessageNotString (message : value) (panelID : string)
    (* The message "${message}" sent to panel "${panelID}" must be a string *)
| NoResponse (message : value) (panelID : string)
    (* Failed to send message "${message}" to panel "${panelID}", no response received. *)
| PanelExists (panelID : string) (winID : N)
    (* The panel "${panelID}" already exists in window "${browserWin.id}" *)
| RemoveWindowNotFound (panelID : string) (winID : N)
    (* Failed to remove panel "${panelID}" from window "${winID}", window not found. *)
| RemovePanelNotFound (panelID : string) (winID : N)
    (* Failed to remove panel "${panelID}" from window "${winID}", panel not found. *)
| ClearWindowNotFound (winID : N).
    (* Failed to clear panels from window "${winID}", window not found. *)

Inductive effect :=
| ConsoleError (d : diagnostic)
| WebContentsSend (target : N) (args : list value)
| Call (f : N) (args : list value).

(** ** The state of the main process *)

Record State := mkState {
  windows : gset N;
  _winID2panelIDs : gmap N (list string);
  _nextSessionId : N;
  sessions : list session;
  effects : list effect
}.

Definition initial : State := mkState ∅ ∅ 0%N [] [].

Definition set_windows (ws : gset N) (s : State) : State :=
  mkState ws (_winID2panelIDs s) (_nextSessionId s) (sessions s) (effects s).

Definition set_winID2panelIDs (r : gmap N (list string)) (s : State) : State :=
  mkState (windows s) r (_nextSessionId s) (sessions s) (effects s).

Definition emit (e : effect) (s : State) : State :=
  mkState (windows s) (_winID2panelIDs s) (_nextSessionId s) (sessions s)
          (effects s ++ [e]).

Definition console_error (d : diagnostic) : State → State :=
  emit (ConsoleError d).

(** A handler either returns or throws.  The exceptions the modelled code
    can raise itself are TypeErrors: reading [.id] of [null], and
    converting, for a log line, a value that has no string form. *)
Inductive completion (A : Type) :=
| Return (a : A)
| Throw_TypeError.
Arguments Return {A} a.
Arguments Throw_TypeError {A}.

(** ** Collaborators: the windowing system *)

(** [BrowserWindow.fromId(id)]: the window, or [null]. *)
Definition fromId (id : N) (s : State) : option N :=
  if decide (id ∈ windows s) then Some id else None.

(** [BrowserWindow.fromWebContents(event.sender)]: the window that owns the
    sending contents, or [null]. *)
Definition fromWebContents (sender : N) (s : State) : option N :=
  if decide (sender ∈ windows s) then Some sender else None.

(** [sender.isDestroyed()] *)
Definition isDestroyed (sender : N) (s : State) : bool :=
  bool_decide (sender ∉ windows s).

(** ** Registry and locator *)

(** [array.indexOf(x)]: the first index holding [x]; [None] stands for -1. *)
Fixpoint indexOf (x : string) (l : list string) : option nat :=
  match l with
  | [] => None
  | y :: l' => if decide (y = x) then Some 0%nat else S <$> indexOf x l'
  end.

(** [array.splice(idx, 1)] *)
Definition splice1 (idx : nat) (l : list string) : list string :=
  take idx l ++ drop (S idx) l.

(** The order of [for (winID in _winID2panelIDs)]: the keys are integer
    indices, which an object enumerates in ascending numeric order. *)
Definition key_le (a b : N * list string) : Prop := (a.1 ≤ b.1)%N.

#[local] Instance key_le_dec a b : Decision (key_le a b).
Proof. unfold key_le. apply _. Defined.

Definition for_in (o : gmap N (list string)) : list (N * list string) :=
  merge_sort key_le (map_to_list o).

(** The loop of [findWindow]: the first entry whose array holds [panelID]. *)
Fixpoint first_holding (panelID : string) (entries : list (N * list string))
  : option N :=
  match entries with
  | [] => None
  | (winID, panelIDs) :: rest =>
      match indexOf panelID panelIDs with
      | Some _ => Some winID
      | None => first_holding panelID rest
      end
  end.

Definition findWindow (panelID : string) (s : State) : option N :=
  match first_holding panelID (for_in (_winID2panelIDs s)) with
  | Some winID => fromId winID s
  | None => None
  end.

(** [getPanels(win)]: [None] is [undefined]. *)
Definition getPanels (win : N) (s : State) : option (list string) :=
  _winID2panelIDs s !! win.


(** ** Lifecycle hooks and control messages *)

(** [app.on('browser-window-created')]: the window exists from now on and
    carries the [closed] observer. *)
Definition browser_window_created (winID : N) (s : State) : State :=
  set_windows ({[winID]} ∪ windows s) s.

(** The [closed] observer: the window is gone, and
    [delete _winID2panelIDs[winID]]. *)
Definition closed (winID : N) (s : State) : State :=
  set_winID2panelIDs (delete winID (_winID2panelIDs s))
                     (set_windows (windows s ∖ {[winID]}) s).

(** [ipcMain.on('electron-panel:add', (event, panelID) => ...)] *)
Definition on_add (sender : N) (panelID : string) (s : State)
  : completion unit * State :=
  match findWindow panelID s with
  | Some browserWin =>
      (Return tt, console_error (PanelExists panelID browserWin) s)
  | None =>
      match fromWebContents sender s with
      | None => (Throw_TypeError, s)
      | Some winID =>
          let panelIDs := default [] (_winID2panelIDs s !! winID) in
          (Return tt,
           set_winID2panelIDs
             (<[winID := panelIDs ++ [panelID]]> (_winID2panelIDs s)) s)
      end
  end.

(** [ipcMain.on('electron-panel:remove', (event, panelID) => ...)] *)
Definition on_remove (sender : N) (panelID : string) (s : State)
  : completion unit * State :=
  match fromWebContents sender s with
  | None => (Throw_TypeError, s)
  | Some winID =>
      match _winID2panelIDs s !! winID with
      | None =>
          (Return tt, console_error (RemoveWindowNotFound panelID winID) s)
      | Some panelIDs =>
          match indexOf panelID panelIDs with
          | None =>
              (Return tt, console_error (RemovePanelNotFound panelID winID) s)
          | Some idx =>
              (Return tt,
               set_winID2panelIDs
                 (<[winID := splice1 idx panelIDs]> (_winID2panelIDs s)) s)
          end
      end
  end.

(** [ipcMain.on('electron-panel:clear', (event) => ...)] *)
Definition on_clear (sender : N) (s : State) : completion unit * State :=
  match fromWebContents sender s with
  | None => (Throw_TypeError, s)
  | Some winID =>
      match _winID2panelIDs s !! winID with
      | None => (Return tt, console_error (ClearWindowNotFound winID) s)
      | Some _ =>
          (Return tt,
           set_winID2panelIDs (delete winID (_winID2panelIDs s)) s)
      end
  end.

(** The events that reach the registry, and the state after a sequence of
    them.  A handler that throws has changed nothing by then. *)
Inductive registry_event :=
| BrowserWindowCreated (winID : N)
| Closed (winID : N)
| Add (sender : N) (panelID : string)
| Remove (sender : N) (panelID : string)
| Clear (sender : N).

Definition step (s : State) (e : registry_event) : State :=
  match e with
  | BrowserWindowCreated winID => browser_window_created winID s
  | Closed winID => closed winID s
  | Add sender panelID => (on_add sender panelID s).2
  | Remove sender panelID => (on_remove sender panelID s).2
  | Clear sender => (on_clear sender s).2
  end.

Definition run (es : list registry_event) (s : State) : State :=
  foldl step s es.

(** ** Consistency of a registry *)

(** Every window with an entry exists. *)
Definition registered_live (s : State) : Prop :=
  ∀ w, is_Some (_winID2panelIDs s !! w) → w ∈ windows s.

(** A panel id occurs in at most one array, and at most once there. *)
Definition unique_owner (s : State) : Prop :=
  (∀ w1 w2 l1 l2 p,
     _winID2panelIDs s !! w1 = Some l1 → _winID2panelIDs s !! w2 = Some l2 →
     p ∈ l1 → p ∈ l2 → w1 = w2)
  ∧ (∀ w l, _winID2panelIDs s !! w = Some l → NoDup l).

Definition consistent (s : State) : Prop :=
  registered_live s ∧ unique_owner s.

(** No array of the registry holds [p]. *)
Definition unowned (p : string) (s : State) : Prop :=
  ∀ w l, _winID2panelIDs s !! w = Some l → p ∉ l.

Definition owns (w : N) (p : string) (s : State) : Prop :=
  ∃ l, _winID2panelIDs s !! w = Some l ∧ p ∈ l.

(** ** Collaborators: electron-ipc-plus and the transport *)

(** What the module takes from outside and the sources do not fix: the
    identifier [ipcPlus.id] that prefixes the channel names, and whether a
    call [win.webContents.send(...)] gives back a value other than
    [false]. *)
Class Collaborators := {
  ipcPlus_id : string;
  webContents_send_ok : N → list value → bool
}.

(** [ipcPlus.option(opts)] marks [opts] as an option object. *)
Definition ipcPlus_option (o : options) : value := VOption o.

Record reply_and_timeout := mkReplyAndTimeout {
  reply : N;
  timeout : Z
}.

(** Modelled from the spec: [ipcPlus.internal._popReplyAndTimeout] belongs to
    electron-ipc-plus, whose sources are not at hand.  "Trailing arguments may
    optionally end with a reply callback and/or a timeout value; these are
    detected positionally (last or second-to-last argument)"; the function
    "extracts trailing callback/timeout from a variadic argument list", and
    with no timeout given "it will be 5000ms" (doc comment of [panel.send]).
    The result is the extracted pair, or [None] for [null], and the
    argument array as the call leaves it. *)
Definition _popReplyAndTimeout (args : list value)
  : option reply_and_timeout * list value :=
  match reverse args with
  | VNumber t :: VFunction f :: rest =>
      (Some (mkReplyAndTimeout f t), reverse rest)
  | VFunction f :: rest =>
      (Some (mkReplyAndTimeout f 5000), reverse rest)
  | _ => (None, args)
  end.

(** Modelled from the spec: [ipcPlus.internal._popOptions] belongs to
    electron-ipc-plus.  It "extracts trailing options from a variadic
    argument list": when the last argument is an option object it is removed
    and returned, otherwise the result is [null] and the array is left. *)
Definition _popOptions (args : list value) : option options * list value :=
  match reverse args with
  | VOption o :: rest => (Some o, reverse rest)
  | _ => (None, args)
  end.

(** Modelled from the spec: [ipcPlus.internal._newSession] belongs to
    electron-ipc-plus.  "newSession(messageName, ownerTag, replyCallback,
    timeoutMs) -> sessionID" records a session "{sessionID, originating
    message name, owner tag, reply callback, timeout}" and "assigns
    correlation identifiers": here the owner tag followed by a running
    number.  The fifth argument of the call at line 119 is kept in
    [session_win]. *)
Definition _newSession (message : value) (prefix : string) (fn : callback)
    (timeout : option Z) (win : option N) (s : State) : string * State :=
  let sessionId := prefix +:+ ":" +:+ pretty (_nextSessionId s) in
  (sessionId,
   mkState (windows s) (_winID2panelIDs s) (N.succ (_nextSessionId s))
           (sessions s ++
              [mkSession sessionId message prefix fn timeout win])
           (effects s)).

(** ** Dispatcher and inbound relay *)

Section Dispatch.
Context {collaborators : Collaborators}.

(** [function _sendToPanel (win, panelID, message, ...args)].  The result is
    the session id, [None] for [undefined].  [this] is [null] at line 119:
    the function is only ever entered through [apply(null, ...)].  The log
    line of line 106 is built from [message] before [console.error] runs, so
    a message without a string form throws there and nothing is logged. *)
Definition _sendToPanel (win : N) (panelID : string) (message : value)
    (args : list value) (s : State) : completion (option string) * State :=
  if bool_decide (typeof message ≠ "string") then
    if template_converts message
    then (Return None, console_error (MessageNotString message panelID) s)
    else (Throw_TypeError, s)
  else
    match _popReplyAndTimeout args with
    | (None, args) =>
        let args :=
          [VString (ipcPlus_id +:+ ":main2panel"); VString panelID; message]
            ++ args in
        let s := emit (WebContentsSend win args) s in
        if webContents_send_ok win args
        then (Return None, s)
        else (Return None, console_error (NoResponse message panelID) s)
    | (Some opts, args) =>
        let '(sessionId, s) :=
          _newSession message (panelID +:+ "@main") (UserReply (reply opts))
                      (Some (timeout opts)) None s in
        let args :=
          [VString (ipcPlus_id +:+ ":main2panel"); VString panelID; message]
            ++ args
            ++ [ipcPlus_option
                  (mkOptions (Some sessionId) true (Some (timeout opts)))] in
        (Return (Some sessionId), emit (WebContentsSend win args) s)
    end.

(** [panel.send = function (panelID, message, ...args)] *)
Definition send (panelID : string) (message : value) (args : list value)
    (s : State) : completion (option string) * State :=
  match findWindow panelID s with
  | None =>
      match _popReplyAndTimeout args with
      | (Some opts, _) =>
          (Return None,
           emit (Call (reply opts) [ErrorNoPanel panelID message]) s)
      | (None, _) => (Return None, s)
      end
  | Some win => _sendToPanel win panelID message args s
  end.

(** The function built at lines 144-155, applied to [replyArgs], and a
    function of the caller applied to them. *)
Definition invoke (fn : callback) (replyArgs : list value) (s : State)
  : State :=
  match fn with
  | UserReply f => emit (Call f replyArgs) s
  | RelayReply sender opts =>
      if isDestroyed sender s then s
      else
        let replyOpts := ipcPlus_option (mkOptions (opt_sessionId opts) false None) in
        emit (WebContentsSend sender
                ([VString (ipcPlus_id +:+ ":reply")] ++ replyArgs ++ [replyOpts]))
             s
  end.

(** [function _renderer2panelOpts (event, panelID, message, ...args)], with
    [sender] for [event.sender]. *)
Definition _renderer2panelOpts (sender : N) (panelID : string)
    (message : value) (args : list value) (s : State)
  : completion unit * State :=
  match args with
  | [] =>
      let '(c, s) := send panelID message [] s in
      (match c with Return _ => Return tt | Throw_TypeError => Throw_TypeError end, s)
  | _ :: _ =>
      let '(opts, args) := _popOptions args in
      let '(args, s) :=
        match opts with
        | Some opts =>
            if opt_waitForReply opts then
              let '(sessionIdAtMain, s) :=
                _newSession message (panelID +:+ "@main")
                            (RelayReply sender opts) (opt_timeout opts) None s in
              (args ++ [ipcPlus_option
                          (mkOptions (Some sessionIdAtMain) true (opt_timeout opts))],
               s)
            else (args, s)
        | None => (args, s)
        end in
      let '(c, s) := send panelID message args s in
      (match c with Return _ => Return tt | Throw_TypeError => Throw_TypeError end, s)
  end.

End Dispatch.

(** ** Concrete runs *)

(** An instance of the collaborators. *)
Definition ipc_plus : Collaborators :=
  {| ipcPlus_id := "ipc-plus"; webContents_send_ok := λ _ _, true |}.

(** Two windows; the first one has registered two panels. *)
Definition two_windows : State :=
  run [BrowserWindowCreated 1; BrowserWindowCreated 2;
       Add 1 "panelA"; Add 1 "panelB"] initial.

(** The option object a renderer attaches to a request it wants answered. *)
Definition renderer_opts : options :=
  mkOptions (Some "panelB@renderer:3") true (Some 100).

(** * Properties *)

(** ** Arrays *)

Lemma indexOf_None x l : indexOf x l = None ↔ x ∉ l.
Proof.
  induction l as [|y l IH]; simpl.
  - split; [intros _; apply not_elem_of_nil | done].
  - rewrite not_elem_of_cons. case_decide as Hy.
    + subst y. split; [done | intros [? _]; done].
    + rewrite <- IH. destruct (indexOf x l); simpl.
      * split; [done | intros [_ ?]; done].
      * split; [intros _; split; [congruence | done] | done].
Qed.

Lemma indexOf_Some x l i :
  indexOf x l = Some i → l !! i = Some x ∧ x ∉ take i l.
Proof.
  revert i; induction l as [|y l IH]; simpl; intros i; [done|].
  case_decide as Hy.
  - intros [= <-]. subst y. split; [done | apply not_elem_of_nil].
  - destruct (indexOf x l) as [j|] eqn:E; simpl; [|done].
    intros [= <-]. destruct (IH j eq_refl) as [? ?]. split; [done|].
    simpl. rewrite not_elem_of_cons. split; [congruence | done].
Qed.

Lemma indexOf_app_cons x l1 l2 :
  x ∉ l1 → indexOf x (l1 ++ x :: l2) = Some (length l1).
Proof.
  induction l1 as [|y l1 IH]; simpl; intros Hx.
  - by rewrite decide_True.
  - apply not_elem_of_cons in Hx as [? ?].
    rewrite decide_False by congruence. by rewrite IH.
Qed.

Lemma splice1_app_cons x (l1 l2 : list string) :
  splice1 (length l1) (l1 ++ x :: l2) = l1 ++ l2.
Proof.
  unfold splice1. rewrite take_app_length.
  replace (S (length l1)) with (length l1 + 1)%nat by lia.
  rewrite <- drop_drop, drop_app_length. done.
Qed.

Lemma splice1_sublist idx (l : list string) : splice1 idx l `sublist_of` l.
Proof.
  unfold splice1. rewrite <- delete_take_drop. apply sublist_delete.
Qed.

(** ** The locator *)

Lemma elem_of_for_in (o : gmap N (list string)) w l :
  (w, l) ∈ for_in o ↔ o !! w = Some l.
Proof.
  unfold for_in. rewrite merge_sort_Permutation. apply elem_of_map_to_list.
Qed.

Lemma first_holding_None p es :
  first_holding p es = None ↔ ∀ w l, (w, l) ∈ es → p ∉ l.
Proof.
  induction es as [|[w0 l0] es IH]; simpl.
  - split; [intros _ w l H; by apply elem_of_nil in H | done].
  - destruct (indexOf p l0) as [i|] eqn:E.
    + split; [done|]. intros H. exfalso.
      assert (p ∉ l0) as Hn by (apply (H w0); left).
      apply indexOf_None in Hn. congruence.
    + rewrite IH. apply indexOf_None in E. split.
      * intros H w l [[= -> ->]|Hin]%elem_of_cons; [done | eauto].
      * intros H w l Hin. apply (H w). by right.
Qed.

Lemma first_holding_Some p es w :
  first_holding p es = Some w → ∃ l, (w, l) ∈ es ∧ p ∈ l.
Proof.
  induction es as [|[w0 l0] es IH]; simpl; [done|].
  destruct (indexOf p l0) as [i|] eqn:E.
  - intros [= <-]. exists l0. split; [left|].
    destruct (decide (p ∈ l0)) as [|Hn]; [done|].
    apply indexOf_None in Hn. congruence.
  - intros [l [? ?]]%IH. exists l. split; [by right | done].
Qed.

Lemma findWindow_unowned p s : unowned p s → findWindow p s = None.
Proof.
  intros Hun. unfold findWindow.
  replace (first_holding p (for_in (_winID2panelIDs s))) with (@None N); [done|].
  symmetry. apply first_holding_None. intros w l Hin.
  apply elem_of_for_in in Hin. eauto.
Qed.

Lemma findWindow_Some p s w :
  findWindow p s = Some w → w ∈ windows s ∧ owns w p s.
Proof.
  unfold findWindow, fromId.
  destruct (first_holding p _) as [w0|] eqn:E; [|done].
  case_decide; [|done]. intros [= <-].
  apply first_holding_Some in E as [l [Hin ?]].
  apply elem_of_for_in in Hin. split; [done | by exists l].
Qed.

Lemma findWindow_None p s :
  registered_live s → findWindow p s = None → unowned p s.
Proof.
  intros Hlive. unfold findWindow, fromId.
  destruct (first_holding p _) as [w0|] eqn:E.
  - apply first_holding_Some in E as [l [Hin ?]].
    apply elem_of_for_in in Hin.
    rewrite decide_True; [done|]. apply Hlive. by exists l.
  - intros _ w l Hw. eapply first_holding_None in E; [done|].
    by apply elem_of_for_in.
Qed.

Lemma findWindow_owner p s w :
  consistent s → owns w p s → findWindow p s = Some w.
Proof.
  intros [Hlive [Huniq _]] [l [Hw Hp]].
  destruct (findWindow p s) as [w'|] eqn:E.
  - apply findWindow_Some in E as [_ [l' [Hw' Hp']]].
    f_equal. eapply Huniq; eauto.
  - eapply findWindow_None in E; [|done]. by destruct (E w l).
Qed.

Lemma owned_or_unowned p s : (∃ w, owns w p s) ∨ unowned p s.
Proof.
  destruct (first_holding p (for_in (_winID2panelIDs s))) as [w|] eqn:E.
  - left. exists w. apply first_holding_Some in E as [l [Hin ?]].
    exists l. split; [by apply elem_of_for_in | done].
  - right. intros w l Hw. eapply first_holding_None in E; [done|].
    by apply elem_of_for_in.
Qed.

(** ** Consistency is kept by every handler *)

Lemma consistent_ext s s' :
  windows s' = windows s → _winID2panelIDs s' = _winID2panelIDs s →
  consistent s → consistent s'.
Proof.
  unfold consistent, registered_live, unique_owner.
  intros -> ->. done.
Qed.

Lemma consistent_grow w p s :
  consistent s → unowned p s → w ∈ windows s →
  consistent
    (set_winID2panelIDs
       (<[w := default [] (_winID2panelIDs s !! w) ++ [p]]> (_winID2panelIDs s))
       s).
Proof.
  intros [Hlive [Huniq Hnd]] Hun Hw.
  assert (∀ q, q ∈ default [] (_winID2panelIDs s !! w) →
               ∃ l, _winID2panelIDs s !! w = Some l ∧ q ∈ l) as Hold.
  { intros q. destruct (_winID2panelIDs s !! w) as [l|]; simpl.
    - intros ?. by exists l.
    - intros H. by apply elem_of_nil in H. }
  split; [|split]; simpl.
  - intros w' [l Hl]. simpl in Hl.
    destruct (decide (w = w')) as [<-|Hne]; [done|].
    rewrite lookup_insert_ne in Hl by done. apply Hlive. by exists l.
  - intros w1 w2 l1 l2 q H1 H2 Hq1 Hq2.
    destruct (decide (w = w1)) as [<-|Hne1], (decide (w = w2)) as [<-|Hne2];
      [done| | |].
    + rewrite lookup_insert_eq in H1. rewrite lookup_insert_ne in H2 by done.
      injection H1 as <-. apply elem_of_app in Hq1 as [Hq1|Hq1].
      * apply Hold in Hq1 as [l [? ?]]. eauto.
      * apply list_elem_of_singleton in Hq1 as ->. by destruct (Hun w2 l2).
    + rewrite lookup_insert_eq in H2. rewrite lookup_insert_ne in H1 by done.
      injection H2 as <-. apply elem_of_app in Hq2 as [Hq2|Hq2].
      * apply Hold in Hq2 as [l [? ?]]. eauto.
      * apply list_elem_of_singleton in Hq2 as ->. by destruct (Hun w1 l1).
    + rewrite lookup_insert_ne in H1, H2 by done. eauto.
  - intros w' l Hl. destruct (decide (w = w')) as [<-|Hne].
    + rewrite lookup_insert_eq in Hl. injection Hl as <-.
      apply NoDup_app. split; [|split].
      * destruct (_winID2panelIDs s !! w) as [l|] eqn:E; simpl;
          [eauto | apply NoDup_nil_2].
      * intros q Hq ->%list_elem_of_singleton.
        apply Hold in Hq as [l [? ?]]. by destruct (Hun w l).
      * apply NoDup_singleton.
    + rewrite lookup_insert_ne in Hl by done. eauto.
Qed.

Lemma consistent_shrink s s' :
  (∀ w l', _winID2panelIDs s' !! w = Some l' →
           w ∈ windows s' ∧
           ∃ l, _winID2panelIDs s !! w = Some l ∧ l' `sublist_of` l) →
  unique_owner s → consistent s'.
Proof.
  intros Hsub [Huniq Hnd]. split; [|split].
  - intros w [l' Hl']. by destruct (Hsub w l' Hl').
  - intros w1 w2 l1 l2 q H1 H2 Hq1 Hq2.
    destruct (Hsub _ _ H1) as [_ [k1 [? S1]]].
    destruct (Hsub _ _ H2) as [_ [k2 [? S2]]].
    eapply (Huniq w1 w2 k1 k2 q); eauto using elem_of_sublist.
  - intros w l' Hl'. destruct (Hsub _ _ Hl') as [_ [l [? S]]].
    eapply sublist_NoDup; eauto.
Qed.

Lemma browser_window_created_consistent w s :
  consistent s → consistent (browser_window_created w s).
Proof.
  intros [Hlive Huniq]. split; [|done].
  intros w' Hw'. simpl. apply elem_of_union_r. by apply Hlive.
Qed.

Lemma closed_consistent w s : consistent s → consistent (closed w s).
Proof.
  intros [Hlive Huniq]. apply (consistent_shrink s); [|done].
  simpl. intros w' l' [Hne Hl']%lookup_delete_Some. split.
  - apply elem_of_difference. split; [apply Hlive; by exists l'|].
    by intros ->%elem_of_singleton.
  - by exists l'.
Qed.

Lemma on_add_consistent w p s : consistent s → consistent (on_add w p s).2.
Proof.
  intros Hc. unfold on_add. destruct (findWindow p s) as [w0|] eqn:E; simpl.
  - by apply (consistent_ext s).
  - unfold fromWebContents. case_decide; simpl; [|done].
    apply consistent_grow; [done | | done].
    apply findWindow_None; [apply Hc | done].
Qed.

Lemma on_remove_consistent w p s :
  consistent s → consistent (on_remove w p s).2.
Proof.
  intros Hc. unfold on_remove, fromWebContents. case_decide; simpl; [|done].
  destruct (_winID2panelIDs s !! w) as [l|] eqn:E; simpl;
    [|by apply (consistent_ext s)].
  destruct (indexOf p l) as [idx|]; simpl; [|by apply (consistent_ext s)].
  destruct Hc as [Hlive Huniq]. apply (consistent_shrink s); [|done].
  simpl. intros w' l' Hl'. destruct (decide (w = w')) as [<-|Hne].
  - rewrite lookup_insert_eq in Hl'. injection Hl' as <-.
    split; [done|]. exists l. split; [done | apply splice1_sublist].
  - rewrite lookup_insert_ne in Hl' by done.
    split; [apply Hlive; by exists l' | by exists l'].
Qed.

Lemma on_clear_consistent w s : consistent s → consistent (on_clear w s).2.
Proof.
  intros Hc. unfold on_clear, fromWebContents. case_decide; simpl; [|done].
  destruct (_winID2panelIDs s !! w) as [l|] eqn:E; simpl;
    [|by apply (consistent_ext s)].
  destruct Hc as [Hlive Huniq]. apply (consistent_shrink s); [|done].
  simpl. intros w' l' [Hne Hl']%lookup_delete_Some.
  split; [apply Hlive; by exists l' | by exists l'].
Qed.

Lemma step_consistent s e : consistent s → consistent (step s e).
Proof.
  destruct e; simpl;
    auto using browser_window_created_consistent, closed_consistent,
               on_add_consistent, on_remove_consistent, on_clear_consistent.
Qed.

Lemma empty_registry_consistent s : _winID2panelIDs s = ∅ → consistent s.
Proof.
  intros He. split; [|split].
  - intros w [l Hl]. by rewrite He, lookup_empty in Hl.
  - intros w1 w2 l1 l2 p H1. by rewrite He, lookup_empty in H1.
  - intros w l Hl. by rewrite He, lookup_empty in Hl.
Qed.

Lemma run_consistent es s : consistent s → consistent (run es s).
Proof.
  revert s. induction es as [|e es IH]; intros s Hc; [done|].
  simpl. apply IH. by apply step_consistent.
Qed.

Lemma reachable_consistent s0 es :
  _winID2panelIDs s0 = ∅ → consistent (run es s0).
Proof. intros He. by apply run_consistent, empty_registry_consistent. Qed.

(** A message whose sender belongs to no window makes the handler throw
    before it has changed anything. *)
Lemma on_add_no_window w p s :
  findWindow p s = None → w ∉ windows s → on_add w p s = (Throw_TypeError, s).
Proof.
  intros Hf Hw. unfold on_add, fromWebContents. rewrite Hf.
  by rewrite decide_False.
Qed.

Lemma on_add_windows w p s : windows (on_add w p s).2 = windows s.
Proof.
  unfold on_add. destruct (findWindow p s); simpl; [done|].
  by destruct (fromWebContents w s).
Qed.

Lemma remove_then_unowned w p s :
  consistent s → w ∈ windows s → owns w p s → unowned p (on_remove w p s).2.
Proof.
  intros [Hlive [Huniq Hnd]] Hw [l [Hl Hp]].
  unfold on_remove, fromWebContents. rewrite decide_True by done. rewrite Hl.
  destruct (indexOf p l) as [idx|] eqn:E.
  2:{ apply indexOf_None in E. done. }
  simpl. apply indexOf_Some in E as [Hidx _].
  intros w' l' Hl'. simpl in Hl'. destruct (decide (w = w')) as [<-|Hne].
  - rewrite lookup_insert_eq in Hl'. injection Hl' as <-.
    specialize (Hnd _ _ Hl). rewrite <- (take_drop_middle l idx p Hidx) in Hnd.
    apply NoDup_app in Hnd as (_ & Hpre & [Hpost _]%NoDup_cons).
    unfold splice1. intros [Hin|Hin]%elem_of_app; [|done].
    apply (Hpre p Hin). left.
  - rewrite lookup_insert_ne in Hl' by done.
    intros Hp'. apply Hne. eapply Huniq; eauto.
Qed.

Lemma on_add_owned w w0 p s :
  consistent s → owns w0 p s →
  on_add w p s = (Return tt, console_error (PanelExists p w0) s).
Proof.
  intros Hc Hown. unfold on_add. by rewrite (findWindow_owner p s w0 Hc Hown).
Qed.

Lemma on_add_unowned w p s :
  unowned p s → w ∈ windows s →
  on_add w p s =
    (Return tt,
     set_winID2panelIDs
       (<[w := default [] (getPanels w s) ++ [p]]> (_winID2panelIDs s)) s).
Proof.
  intros Hun Hw. unfold on_add, fromWebContents.
  rewrite (findWindow_unowned p s Hun). by rewrite decide_True.
Qed.

Lemma on_add_unowned_owns w p s :
  unowned p s → w ∈ windows s → owns w p (on_add w p s).2.
Proof.
  intros Hun Hw. rewrite on_add_unowned by done. simpl.
  exists (default [] (getPanels w s) ++ [p]). split.
  - apply lookup_insert_eq.
  - apply elem_of_app. right. by apply list_elem_of_singleton.
Qed.

(** ** The registry *)

(** C1.  Start from any state whose registry is empty and let any sequence
    of window creations, window closings and add, remove and clear messages
    happen.  After every prefix of the sequence, a panel id occurs in the
    array of at most one window, and at most once in that array. *)
Theorem registry_unique_owner (s0 : State) (es : list registry_event) :
  _winID2panelIDs s0 = ∅ →
  ∀ pre, pre `prefix_of` es → unique_owner (run pre s0).
Proof.
  intros He pre _. apply run_consistent. by apply empty_registry_consistent.
Qed.

(** C5.  In a consistent state, an add message for a panel that some window
    [w0] already holds (the sender's window or another) only logs that the
    panel exists in [w0]: the registry is as before.  For a panel no window
    holds, sent by an existing window [w], the panel id is pushed onto the
    array of [w], an empty array being made first if [w] had none, and
    [findWindow] then answers [w]. *)
Theorem on_add_spec (s : State) (w : N) (p : string) :
  consistent s →
  (∀ w0, owns w0 p s →
     on_add w p s = (Return tt, console_error (PanelExists p w0) s)
     ∧ _winID2panelIDs (on_add w p s).2 = _winID2panelIDs s)
  ∧ (unowned p s → w ∈ windows s →
     on_add w p s =
       (Return tt,
        set_winID2panelIDs
          (<[w := default [] (getPanels w s) ++ [p]]> (_winID2panelIDs s)) s)
     ∧ findWindow p (on_add w p s).2 = Some w).
Proof.
  intros Hc. split.
  - intros w0 Hown. by rewrite (on_add_owned w w0 p s Hc Hown).
  - intros Hun Hw. split; [by apply on_add_unowned|].
    apply findWindow_owner; [by apply on_add_consistent|].
    by apply on_add_unowned_owns.
Qed.

(** C6, as the code has it.  A remove message from an existing window [w]:
    with no entry for [w] it only logs "window not found"; with an entry
    that lacks the panel it only logs "panel not found"; otherwise the
    first, and in a consistent state only, occurrence of the panel is cut
    out of the array of [w] and the rest keeps its order.  In a consistent
    state where no window other than [w] holds the panel, an add of the
    panel from [w] followed by a remove of it from [w] leaves the panel
    without a window: [findWindow] answers [null]. *)
Theorem on_remove_spec (s : State) (w : N) (p : string) :
  w ∈ windows s →
  (getPanels w s = None →
     on_remove w p s = (Return tt, console_error (RemoveWindowNotFound p w) s))
  ∧ (∀ l, getPanels w s = Some l → p ∉ l →
     on_remove w p s = (Return tt, console_error (RemovePanelNotFound p w) s))
  ∧ (∀ l1 l2, getPanels w s = Some (l1 ++ p :: l2) → p ∉ l1 →
     on_remove w p s =
       (Return tt,
        set_winID2panelIDs (<[w := l1 ++ l2]> (_winID2panelIDs s)) s))
  ∧ (consistent s → (∀ w', owns w' p s → w' = w) →
     findWindow p (on_remove w p (on_add w p s).2).2 = None).
Proof.
  intros Hw. unfold getPanels.
  split; [|split; [|split]].
  - intros Hnone. unfold on_remove, fromWebContents.
    rewrite decide_True by done. by rewrite Hnone.
  - intros l Hl Hp. unfold on_remove, fromWebContents.
    rewrite decide_True by done. rewrite Hl.
    apply indexOf_None in Hp. by rewrite Hp.
  - intros l1 l2 Hl Hp. unfold on_remove, fromWebContents.
    rewrite decide_True by done. rewrite Hl.
    rewrite indexOf_app_cons by done. by rewrite splice1_app_cons.
  - intros Hc Honly.
    apply findWindow_unowned, remove_then_unowned;
      [by apply on_add_consistent | by rewrite on_add_windows |].
    destruct (owned_or_unowned p s) as [[w' Hown]|Hun].
    + rewrite (Honly w' Hown) in Hown.
      by rewrite (on_add_owned w w p s Hc Hown).
    + by apply on_add_unowned_owns.
Qed.

(** C7.  The [closed] observer produces no diagnostic and cannot fail;
    running it a second time changes nothing; afterwards the window has no
    entry and the entries of all other windows are as before; and when
    every panel had a single owner, [findWindow] answers [null] for each
    panel the closed window held. *)
Theorem closed_spec (s : State) (w : N) :
  effects (closed w s) = effects s
  ∧ closed w (closed w s) = closed w s
  ∧ getPanels w (closed w s) = None
  ∧ (∀ w', w' ≠ w → getPanels w' (closed w s) = getPanels w' s)
  ∧ (unique_owner s → ∀ l p, getPanels w s = Some l → p ∈ l →
     findWindow p (closed w s) = None).
Proof.
  unfold getPanels. split; [done|]. split; [|split; [|split]].
  - unfold closed, set_winID2panelIDs, set_windows; simpl. f_equal.
    + apply set_eq. intros x. rewrite !elem_of_difference. tauto.
    + apply delete_delete_eq.
  - simpl. apply lookup_delete_eq.
  - intros w' Hne. simpl. by apply lookup_delete_ne.
  - intros [Huniq _] l p Hl Hp. apply findWindow_unowned.
    intros w' l' Hl' Hp'. simpl in Hl'.
    apply lookup_delete_Some in Hl' as [Hne Hl'].
    apply Hne. eapply Huniq; eauto.
Qed.

(** ** Trailing arguments *)

Lemma _popReplyAndTimeout_callback a f :
  _popReplyAndTimeout (a ++ [VFunction f]) = (Some (mkReplyAndTimeout f 5000), a).
Proof.
  unfold _popReplyAndTimeout. rewrite reverse_snoc. by rewrite reverse_involutive.
Qed.

Lemma _popReplyAndTimeout_callback_timeout a f t :
  _popReplyAndTimeout (a ++ [VFunction f; VNumber t])
  = (Some (mkReplyAndTimeout f t), a).
Proof.
  unfold _popReplyAndTimeout.
  replace (a ++ [VFunction f; VNumber t]) with ((a ++ [VFunction f]) ++ [VNumber t])
    by by rewrite <- app_assoc.
  rewrite !reverse_snoc. by rewrite reverse_involutive.
Qed.

Lemma _popReplyAndTimeout_option a o :
  _popReplyAndTimeout (a ++ [VOption o]) = (None, a ++ [VOption o]).
Proof. unfold _popReplyAndTimeout. by rewrite reverse_snoc. Qed.

Lemma _popReplyAndTimeout_Some args opts rest :
  _popReplyAndTimeout args = (Some opts, rest) →
  (args = rest ++ [VFunction (reply opts)] ∧ timeout opts = 5000)
  ∨ args = rest ++ [VFunction (reply opts); VNumber (timeout opts)].
Proof.
  unfold _popReplyAndTimeout. rewrite <- (reverse_involutive args) at 2 3.
  destruct (reverse args) as [|v r]; [done|].
  destruct v; try done.
  - destruct r as [|v r]; [done|]. destruct v; try done.
    intros [= <- <-]. right. simpl.
    rewrite !reverse_cons. by rewrite <- app_assoc.
  - intros [= <- <-]. left. simpl. by rewrite reverse_cons.
Qed.

Lemma _popOptions_option a o : _popOptions (a ++ [VOption o]) = (Some o, a).
Proof.
  unfold _popOptions. rewrite reverse_snoc. by rewrite reverse_involutive.
Qed.

(** ** Dispatcher and relay *)

Section DispatchProperties.
Context {collaborators : Collaborators}.

Lemma send_unowned_reply p m args s opts rest :
  unowned p s → _popReplyAndTimeout args = (Some opts, rest) →
  send p m args s
  = (Return None, emit (Call (reply opts) [ErrorNoPanel p m]) s).
Proof.
  intros Hun Hpop. unfold send. rewrite (findWindow_unowned p s Hun).
  by rewrite Hpop.
Qed.

Lemma send_unowned_no_reply p m args s rest :
  unowned p s → _popReplyAndTimeout args = (None, rest) →
  send p m args s = (Return None, s).
Proof.
  intros Hun Hpop. unfold send. rewrite (findWindow_unowned p s Hun).
  by rewrite Hpop.
Qed.

Lemma send_owned_non_string w p m args s :
  consistent s → owns w p s → typeof m ≠ "string" →
  template_converts m = true →
  send p m args s = (Return None, console_error (MessageNotString m p) s).
Proof.
  intros Hc Hown Hm Hconv. unfold send, _sendToPanel.
  rewrite (findWindow_owner p s w Hc Hown).
  rewrite bool_decide_true by done. by rewrite Hconv.
Qed.

Lemma send_owned_no_string_form w p m args s :
  consistent s → owns w p s → typeof m ≠ "string" →
  template_converts m = false →
  send p m args s = (Throw_TypeError, s).
Proof.
  intros Hc Hown Hm Hconv. unfold send, _sendToPanel.
  rewrite (findWindow_owner p s w Hc Hown).
  rewrite bool_decide_true by done. by rewrite Hconv.
Qed.

Lemma send_registry p m args s :
  windows (send p m args s).2 = windows s
  ∧ _winID2panelIDs (send p m args s).2 = _winID2panelIDs s.
Proof.
  unfold send, _sendToPanel. destruct (findWindow p s) as [w|].
  - case_bool_decide; [by destruct (template_converts m)|].
    destruct (_popReplyAndTimeout args) as [[opts|] rest]; simpl; [done|].
    by destruct (webContents_send_ok _ _).
  - by destruct (_popReplyAndTimeout args) as [[opts|] rest].
Qed.

Lemma _renderer2panelOpts_registry sender p m args s :
  windows (_renderer2panelOpts sender p m args s).2 = windows s
  ∧ _winID2panelIDs (_renderer2panelOpts sender p m args s).2
    = _winID2panelIDs s.
Proof.
  unfold _renderer2panelOpts. destruct args as [|v args].
  - pose proof (send_registry p m [] s) as Hs.
    by destruct (send p m [] s).
  - destruct (_popOptions (v :: args)) as [[o|] rest].
    + destruct (opt_waitForReply o); simpl.
      * match goal with |- context [send p m ?a ?s'] =>
          pose proof (send_registry p m a s') as Hs;
          destruct (send p m a s') end.
        done.
      * pose proof (send_registry p m rest s) as Hs.
        by destruct (send p m rest s).
    + pose proof (send_registry p m rest s) as Hs.
      by destruct (send p m rest s).
Qed.

Lemma invoke_registry fn replyArgs s :
  windows (invoke fn replyArgs s) = windows s
  ∧ _winID2panelIDs (invoke fn replyArgs s) = _winID2panelIDs s.
Proof.
  destruct fn as [f|sender o]; simpl; [done|].
  by destruct (isDestroyed sender s).
Qed.

Lemma send_option_last p m a o s :
  send p m (a ++ [VOption o]) s
  = match findWindow p s with
    | None => (Return None, s)
    | Some w =>
        if bool_decide (typeof m ≠ "string") then
          if template_converts m
          then (Return None, console_error (MessageNotString m p) s)
          else (Throw_TypeError, s)
        else
          let args :=
            [VString (ipcPlus_id +:+ ":main2panel"); VString p; m]
              ++ a ++ [VOption o] in
          if webContents_send_ok w args
          then (Return None, emit (WebContentsSend w args) s)
          else (Return None,
                console_error (NoResponse m p)
                              (emit (WebContentsSend w args) s))
    end.
Proof.
  unfold send, _sendToPanel. rewrite _popReplyAndTimeout_option.
  destruct (findWindow p s); [|done]. by case_bool_decide.
Qed.

(** C2.  [send] for a panel that no window holds.  When the trailing
    arguments carry a reply function (last, or second to last before a
    number), that function is called once, during the call, with an
    [ErrorNoPanel] made of the panel id and the message; nothing else
    happens: no message is handed to a [webContents], nothing is logged.
    Without a reply function the call changes nothing at all.  In both
    cases it returns [undefined] and does not throw. *)
Theorem send_unowned (s : State) (p : string) (m : value)
    (args : list value) :
  unowned p s →
  (∀ opts rest, _popReplyAndTimeout args = (Some opts, rest) →
     send p m args s
     = (Return None, emit (Call (reply opts) [ErrorNoPanel p m]) s))
  ∧ (∀ a f, args = a ++ [VFunction f] →
     send p m args s = (Return None, emit (Call f [ErrorNoPanel p m]) s))
  ∧ (∀ a f t, args = a ++ [VFunction f; VNumber t] →
     send p m args s = (Return None, emit (Call f [ErrorNoPanel p m]) s))
  ∧ (∀ rest, _popReplyAndTimeout args = (None, rest) →
     send p m args s = (Return None, s)).
Proof.
  intros Hun. split; [|split; [|split]].
  - intros opts rest. by apply send_unowned_reply.
  - intros a f ->.
    by rewrite (send_unowned_reply _ _ _ _ _ _ Hun
                  (_popReplyAndTimeout_callback a f)).
  - intros a f t ->.
    by rewrite (send_unowned_reply _ _ _ _ _ _ Hun
                  (_popReplyAndTimeout_callback_timeout a f t)).
  - intros rest. by apply send_unowned_no_reply.
Qed.

(** C3.  [send] of a string message to a panel that window [w] holds, in a
    consistent state, with a reply function and a timeout as the last two
    arguments: one session is appended, owned by "panelID@main", holding the
    message, the reply function and the timeout; one message is handed to
    the [webContents] of [w], made of the channel name, the panel id, the
    message, the remaining arguments and an option object with the session
    id, [waitForReply: true] and the timeout; and the session id is
    returned.  Nothing else changes. *)
Theorem send_with_reply (s : State) (w : N) (p msg : string)
    (a : list value) (f : N) (t : Z) :
  consistent s → owns w p s →
  let sessionId := (p +:+ "@main") +:+ ":" +:+ pretty (_nextSessionId s) in
  send p (VString msg) (a ++ [VFunction f; VNumber t]) s
  = (Return (Some sessionId),
     mkState (windows s) (_winID2panelIDs s) (N.succ (_nextSessionId s))
       (sessions s ++
          [mkSession sessionId (VString msg) (p +:+ "@main") (UserReply f)
                     (Some t) None])
       (effects s ++
          [WebContentsSend w
             ([VString (ipcPlus_id +:+ ":main2panel"); VString p; VString msg]
                ++ a
                ++ [VOption (mkOptions (Some sessionId) true (Some t))])])).
Proof.
  intros Hc Hown sessionId. unfold send, _sendToPanel.
  rewrite (findWindow_owner p s w Hc Hown). simpl.
  by rewrite _popReplyAndTimeout_callback_timeout.
Qed.

(** C4.  A renderer-to-panel message whose last argument is an option object
    with [waitForReply] set.  Exactly one session is appended, under a
    session id of the main process, and its reply function is the relay
    closure over the sender and the option object.  Whenever that function
    is later applied to reply arguments while the sender exists, one message
    is handed to the sender: the reply channel, the reply arguments and an
    option object whose session id is the one the sender sent, whatever id
    the main process gave its own session; when the sender has been
    destroyed the function does nothing.  When moreover window [w] holds the
    panel in a consistent state and the message is a string, the request
    handed to [w] carries the session id of the main process. *)
Theorem relay_reply (s : State) (sender : N) (p : string) (m : value)
    (a : list value) (o : options) :
  opt_waitForReply o = true →
  let s' := (_renderer2panelOpts sender p m (a ++ [VOption o]) s).2 in
  let sessionIdAtMain := (p +:+ "@main") +:+ ":" +:+ pretty (_nextSessionId s) in
  ∃ fn,
    sessions s'
    = sessions s ++
        [mkSession sessionIdAtMain m (p +:+ "@main") fn (opt_timeout o) None]
    ∧ (∀ s2 replyArgs, sender ∈ windows s2 →
         invoke fn replyArgs s2
         = emit (WebContentsSend sender
                   ([VString (ipcPlus_id +:+ ":reply")] ++ replyArgs ++
                    [VOption (mkOptions (opt_sessionId o) false None)])) s2)
    ∧ (∀ s2 replyArgs, sender ∉ windows s2 → invoke fn replyArgs s2 = s2)
    ∧ (∀ w msg, consistent s → owns w p s → m = VString msg →
         effects s'
         = effects s ++
             [WebContentsSend w
                ([VString (ipcPlus_id +:+ ":main2panel"); VString p; m] ++ a ++
                 [VOption (mkOptions (Some sessionIdAtMain) true
                                     (opt_timeout o))])]
           ++ (if webContents_send_ok w
                    ([VString (ipcPlus_id +:+ ":main2panel"); VString p; m]
                       ++ a ++
                     [VOption (mkOptions (Some sessionIdAtMain) true
                                         (opt_timeout o))])
               then [] else [ConsoleError (NoResponse m p)])).
Proof.
  intros Hwait s' sid. exists (RelayReply sender o).
  assert (∃ v a', a ++ [VOption o] = v :: a') as (v & a' & Hcons).
  { destruct a; simpl; eauto. }
  subst s'. unfold _renderer2panelOpts. rewrite Hcons, <- Hcons.
  rewrite _popOptions_option, Hwait. simpl. unfold ipcPlus_option.
  rewrite send_option_last.
  split; [|split; [|split]].
  - destruct (findWindow p _) as [w|]; [|done].
    case_bool_decide; [by destruct (template_converts m)|]. cbv zeta.
    by destruct (webContents_send_ok w _).
  - intros s2 replyArgs Hin. simpl. unfold isDestroyed.
    by rewrite bool_decide_false by (intros Hn; by apply Hn).
  - intros s2 replyArgs Hin. simpl. unfold isDestroyed.
    by rewrite bool_decide_true.
  - intros w msg Hc Hown ->.
    rewrite (findWindow_owner p _ w); [|by apply (consistent_ext s)|done].
    simpl. destruct (webContents_send_ok w _); simpl; [done|].
    by rewrite <- app_assoc.
Qed.

(** C8, as the code has it.  [send] with a message that is not a string
    never hands a message to a [webContents] and never opens a session.  In
    a consistent state where a window holds the panel, and for a message
    that has a string form for the log line, the call only logs that the
    message must be a string.  Where no window holds the panel, nothing is
    logged: the call does what it does for any message to such a panel. *)
Theorem send_non_string (s : State) (p : string) (m : value)
    (args : list value) :
  typeof m ≠ "string" →
  (∀ target wargs,
     WebContentsSend target wargs ∈ effects (send p m args s).2 →
     WebContentsSend target wargs ∈ effects s)
  ∧ sessions (send p m args s).2 = sessions s
  ∧ (consistent s → ∀ w, owns w p s → template_converts m = true →
     send p m args s = (Return None, console_error (MessageNotString m p) s))
  ∧ (unowned p s →
     send p m args s
     = (Return None,
        match (_popReplyAndTimeout args).1 with
        | Some opts => emit (Call (reply opts) [ErrorNoPanel p m]) s
        | None => s
        end)).
Proof.
  intros Hm. split; [|split; [|split]].
  - intros target wargs. unfold send, _sendToPanel.
    destruct (findWindow p s) as [w|].
    + rewrite bool_decide_true by done.
      destruct (template_converts m); simpl; [|done].
      intros [?|Hin%list_elem_of_singleton]%elem_of_app; [done | discriminate].
    + destruct (_popReplyAndTimeout args) as [[opts|] rest]; simpl; [|done].
      intros [?|Hin%list_elem_of_singleton]%elem_of_app; [done | discriminate].
  - unfold send, _sendToPanel. destruct (findWindow p s) as [w|].
    + rewrite bool_decide_true by done. by destruct (template_converts m).
    + by destruct (_popReplyAndTimeout args) as [[opts|] rest].
  - intros Hc w Hown Hconv. by apply (send_owned_non_string w).
  - intros Hun. unfold send. rewrite (findWindow_unowned p s Hun).
    by destruct (_popReplyAndTimeout args) as [[opts|] rest].
Qed.

(** C9, as the code has it.  [send] with a reply function among the
    trailing arguments.  Where no window holds the panel, the reply function
    is called once with an [ErrorNoPanel], whether the message is a string or
    not.  Where a window holds the panel, in a consistent state, and the
    message is not a string but has a string form for the log line, that
    error is only logged: the reply function is not called, no session is
    opened and no message is handed over. *)
Theorem send_reply_errors (s : State) (p : string) (m : value)
    (args : list value) (opts : reply_and_timeout) (rest : list value) :
  _popReplyAndTimeout args = (Some opts, rest) →
  (unowned p s →
     send p m args s
     = (Return None, emit (Call (reply opts) [ErrorNoPanel p m]) s))
  ∧ (consistent s → ∀ w, owns w p s → typeof m ≠ "string" →
     template_converts m = true →
     send p m args s = (Return None, console_error (MessageNotString m p) s)).
Proof.
  intros Hpop. split.
  - intros Hun. by apply (send_unowned_reply _ _ _ _ _ rest).
  - intros Hc w Hown Hm Hconv. by apply (send_owned_non_string w).
Qed.

(** C10.  [send] looks for the window before it looks at the message: with
    a message that is not a string, a panel no window holds and a reply
    function among the trailing arguments, the reply function is called with
    an [ErrorNoPanel] carrying the panel id and that message, and this call
    is the only effect: nothing is logged. *)
Theorem send_lookup_before_type_check (s : State) (p : string) (m : value)
    (args : list value) (opts : reply_and_timeout) (rest : list value) :
  typeof m ≠ "string" → unowned p s →
  _popReplyAndTimeout args = (Some opts, rest) →
  send p m args s
  = (Return None, emit (Call (reply opts) [ErrorNoPanel p m]) s)
  ∧ effects (send p m args s).2
    = effects s ++ [Call (reply opts) [ErrorNoPanel p m]].
Proof.
  intros _ Hun Hpop. by rewrite (send_unowned_reply _ _ _ _ _ rest Hun Hpop).
Qed.

End DispatchProperties.

(** ** The scenarios of the specification *)

Example scenario_remove_first :
  getPanels 1 (run [BrowserWindowCreated 1; Add 1 "panelA"; Add 1 "panelB";
                    Remove 1 "panelA"] initial)
  = Some ["panelB"].
Proof. by vm_compute. Qed.

Example scenario_duplicate :
  let s := run [BrowserWindowCreated 1; BrowserWindowCreated 2;
                Add 1 "panelA"] initial in
  effects (on_add 2 "panelA" s).2 = [ConsoleError (PanelExists "panelA" 1)]
  ∧ getPanels 2 (on_add 2 "panelA" s).2 = None.
Proof. split; by vm_compute. Qed.

(** An add that is refused because another window holds the panel leaves
    the panel with that window, also after a remove from the refused
    window. *)
Example scenario_refused_add_then_remove :
  findWindow "panelA" (run [Add 2 "panelA"; Remove 2 "panelA"] two_windows)
  = Some 1%N.
Proof. by vm_compute. Qed.

(** ** The theorems at concrete inputs *)

Lemma two_windows_consistent : consistent two_windows.
Proof. by apply run_consistent, empty_registry_consistent. Qed.

Lemma two_windows_panels :
  getPanels 1 two_windows = Some ["panelA"; "panelB"]
  ∧ getPanels 2 two_windows = None
  ∧ windows two_windows = {[1%N; 2%N]}.
Proof.
  split; [by vm_compute | split; [by vm_compute|]].
  apply set_eq. intros x. unfold two_windows. simpl. set_solver.
Qed.

Lemma two_windows_owns_panelA : owns 1 "panelA" two_windows.
Proof.
  exists ["panelA"; "panelB"]. split; [apply two_windows_panels | left].
Qed.

Lemma two_windows_unowned_panelC : unowned "panelC" two_windows.
Proof.
  apply findWindow_None; [apply two_windows_consistent | by vm_compute].
Qed.

Lemma two_windows_live w : w = 1%N ∨ w = 2%N → w ∈ windows two_windows.
Proof.
  destruct two_windows_panels as (_ & _ & ->). set_solver.
Qed.

Lemma registry_unique_owner_witness :
  _winID2panelIDs initial = ∅
  ∧ unique_owner
      (run [BrowserWindowCreated 1; BrowserWindowCreated 2; Add 1 "panelA";
            Add 2 "panelA"; Remove 1 "panelA"; Add 2 "panelA"; Closed 2]
           initial).
Proof.
  split; [reflexivity|].
  apply (registry_unique_owner initial
           [BrowserWindowCreated 1; BrowserWindowCreated 2; Add 1 "panelA";
            Add 2 "panelA"; Remove 1 "panelA"; Add 2 "panelA"; Closed 2]
           eq_refl).
  exists []. reflexivity.
Defined.

Lemma on_add_spec_witness :
  consistent two_windows
  ∧ on_add 2 "panelA" two_windows
    = (Return tt, console_error (PanelExists "panelA" 1) two_windows)
  ∧ findWindow "panelC" (on_add 2 "panelC" two_windows).2 = Some 2%N.
Proof.
  split; [apply two_windows_consistent|]. split.
  - destruct (on_add_spec two_windows 2 "panelA" two_windows_consistent)
      as [Hdup _].
    apply (Hdup 1%N), two_windows_owns_panelA.
  - destruct (on_add_spec two_windows 2 "panelC" two_windows_consistent)
      as [_ Hnew].
    apply Hnew.
    + apply two_windows_unowned_panelC.
    + apply two_windows_live. by right.
Defined.

Lemma on_remove_spec_witness :
  1%N ∈ windows two_windows
  ∧ on_remove 1 "panelA" two_windows
    = (Return tt,
       set_winID2panelIDs (<[1%N := ["panelB"]]> (_winID2panelIDs two_windows))
                          two_windows)
  ∧ findWindow "panelC"
      (on_remove 1 "panelC" (on_add 1 "panelC" two_windows).2).2 = None.
Proof.
  assert (1%N ∈ windows two_windows) as Hw by (apply two_windows_live; by left).
  split; [done|]. split.
  - destruct (on_remove_spec two_windows 1 "panelA" Hw) as (_ & _ & Hcut & _).
    apply (Hcut [] ["panelB"]).
    + apply two_windows_panels.
    + apply not_elem_of_nil.
  - destruct (on_remove_spec two_windows 1 "panelC" Hw) as (_ & _ & _ & Hnew).
    apply Hnew.
    + apply two_windows_consistent.
    + intros w' [l [Hl Hp]].
      by destruct (two_windows_unowned_panelC w' l Hl).
Defined.

(** C6, the claim as it was stated, fails when another window holds the
    panel: in a state reached from the empty registry, window 1 holds
    panelA; the add from window 2 is refused, the remove from window 2 finds
    no entry, and [findWindow] still answers window 1. *)
Lemma add_then_remove_still_found :
  two_windows
  = run [BrowserWindowCreated 1; BrowserWindowCreated 2;
         Add 1 "panelA"; Add 1 "panelB"] initial
  ∧ 2%N ∈ windows two_windows
  ∧ effects (on_add 2 "panelA" two_windows).2
    = [ConsoleError (PanelExists "panelA" 1)]
  ∧ findWindow "panelA"
      (on_remove 2 "panelA" (on_add 2 "panelA" two_windows).2).2
    = Some 1%N
  ∧ findWindow "panelA"
      (on_remove 2 "panelA" (on_add 2 "panelA" two_windows).2).2
    ≠ None.
Proof.
  split; [reflexivity|].
  split; [apply two_windows_live; by right|].
  split; [by vm_compute|].
  assert (findWindow "panelA"
            (on_remove 2 "panelA" (on_add 2 "panelA" two_windows).2).2
          = Some 1%N) as Hf by by vm_compute.
  split; [done|]. by rewrite Hf.
Qed.

Lemma closed_spec_witness :
  unique_owner two_windows
  ∧ findWindow "panelA" (closed 1 two_windows) = None.
Proof.
  split; [apply two_windows_consistent|].
  destruct (closed_spec two_windows 1) as (_ & _ & _ & _ & Hgone).
  apply (Hgone (proj2 two_windows_consistent) ["panelA"; "panelB"]).
  - apply two_windows_panels.
  - left.
Defined.

Lemma send_unowned_witness :
  unowned "panelC" two_windows
  ∧ @send ipc_plus "panelC" (VString "say-hello") [VNumber 1; VFunction 7]
          two_windows
    = (Return None,
       emit (Call 7 [ErrorNoPanel "panelC" (VString "say-hello")]) two_windows)
  ∧ @send ipc_plus "panelC" (VString "say-hello") [VNumber 1] two_windows
    = (Return None, two_windows).
Proof.
  split; [apply two_windows_unowned_panelC|]. split.
  - destruct (@send_unowned ipc_plus two_windows "panelC" (VString "say-hello")
                [VNumber 1; VFunction 7] two_windows_unowned_panelC)
      as (_ & Hlast & _).
    by apply (Hlast [VNumber 1] 7%N).
  - destruct (@send_unowned ipc_plus two_windows "panelC" (VString "say-hello")
                [VNumber 1] two_windows_unowned_panelC)
      as (_ & _ & _ & Hnone).
    by apply (Hnone [VNumber 1]).
Defined.

Lemma send_with_reply_witness :
  consistent two_windows ∧ owns 1 "panelA" two_windows
  ∧ (@send ipc_plus "panelA" (VString "say-hello")
           ([VNumber 1; VString "x"] ++ [VFunction 7; VNumber 100])
           two_windows).1
    = Return (Some "panelA@main:0").
Proof.
  split; [apply two_windows_consistent|].
  split; [apply two_windows_owns_panelA|].
  rewrite (@send_with_reply ipc_plus two_windows 1 "panelA" "say-hello"
             [VNumber 1; VString "x"] 7 100
             two_windows_consistent two_windows_owns_panelA).
  reflexivity.
Defined.

Lemma relay_reply_witness :
  opt_waitForReply renderer_opts = true
  ∧ ∃ fn,
      sessions (@_renderer2panelOpts ipc_plus 2 "panelA" (VString "say-hello")
                  [VNumber 1; VOption renderer_opts] two_windows).2
      = [mkSession "panelA@main:0" (VString "say-hello") "panelA@main" fn
                   (Some 100) None]
      ∧ @invoke ipc_plus fn [VString "Hi"] two_windows
        = emit (WebContentsSend 2
                  [VString "ipc-plus:reply"; VString "Hi";
                   VOption (mkOptions (Some "panelB@renderer:3") false None)])
               two_windows
      ∧ @invoke ipc_plus fn [VString "Hi"] (closed 2 two_windows)
        = closed 2 two_windows.
Proof.
  split; [reflexivity|].
  destruct (@relay_reply ipc_plus two_windows 2 "panelA" (VString "say-hello")
              [VNumber 1] renderer_opts eq_refl)
    as (fn & Hsess & Halive & Hdead & _).
  exists fn. split; [exact Hsess|]. split.
  - apply Halive. apply two_windows_live. by right.
  - apply Hdead. simpl. intros [_ Hn]%elem_of_difference.
    apply Hn. by apply elem_of_singleton.
Defined.

(** C8, the claim as it was stated, fails for a panel no window holds: the
    message 42 is not a string, and the call logs nothing. *)
Lemma send_non_string_unowned_silent :
  typeof (VNumber 42) ≠ "string"
  ∧ unowned "panelC" two_windows
  ∧ @send ipc_plus "panelC" (VNumber 42) [] two_windows
    = (Return None, two_windows)
  ∧ ¬ ∃ d, ConsoleError d
           ∈ effects (@send ipc_plus "panelC" (VNumber 42) [] two_windows).2.
Proof.
  split; [discriminate|]. split; [apply two_windows_unowned_panelC|].
  assert (@send ipc_plus "panelC" (VNumber 42) [] two_windows
          = (Return None, two_windows)) as Heq.
  { apply (@send_unowned_no_reply ipc_plus _ _ _ _ []);
      [apply two_windows_unowned_panelC | reflexivity]. }
  split; [done|]. rewrite Heq. intros [d Hd].
  by apply elem_of_nil in Hd.
Qed.

Lemma send_non_string_witness :
  typeof (VNumber 42) ≠ "string"
  ∧ @send ipc_plus "panelA" (VNumber 42) [VFunction 7] two_windows
    = (Return None,
       console_error (MessageNotString (VNumber 42) "panelA") two_windows).
Proof.
  split; [discriminate|].
  destruct (@send_non_string ipc_plus two_windows "panelA" (VNumber 42)
              [VFunction 7] ltac:(discriminate))
    as (_ & _ & Hlog & _).
  apply (Hlog two_windows_consistent 1%N two_windows_owns_panelA eq_refl).
Defined.

(** C9, the claim as it was stated, fails for a message that is not a
    string sent to a registered panel: the reply function 7 was supplied, the
    error is logged, and no function is called. *)
Lemma send_non_string_reply_not_called :
  (_popReplyAndTimeout [VFunction 7]).1 = Some (mkReplyAndTimeout 7 5000)
  ∧ owns 1 "panelA" two_windows
  ∧ effects (@send ipc_plus "panelA" (VNumber 42) [VFunction 7] two_windows).2
    = [ConsoleError (MessageNotString (VNumber 42) "panelA")]
  ∧ ¬ ∃ f a, Call f a
             ∈ effects (@send ipc_plus "panelA" (VNumber 42) [VFunction 7]
                              two_windows).2.
Proof.
  split; [reflexivity|]. split; [apply two_windows_owns_panelA|].
  rewrite (@send_owned_non_string ipc_plus 1 "panelA" (VNumber 42)
             [VFunction 7] two_windows two_windows_consistent
             two_windows_owns_panelA ltac:(discriminate) eq_refl).
  split; [reflexivity|]. intros (f & a & Hin). simpl in Hin.
  apply list_elem_of_singleton in Hin. discriminate.
Qed.

Lemma send_reply_errors_witness :
  _popReplyAndTimeout [VFunction 7] = (Some (mkReplyAndTimeout 7 5000), [])
  ∧ @send ipc_plus "panelC" (VNumber 42) [VFunction 7] two_windows
    = (Return None,
       emit (Call 7 [ErrorNoPanel "panelC" (VNumber 42)]) two_windows)
  ∧ @send ipc_plus "panelA" (VNumber 42) [VFunction 7] two_windows
    = (Return None,
       console_error (MessageNotString (VNumber 42) "panelA") two_windows).
Proof.
  split; [reflexivity|].
  destruct (@send_reply_errors ipc_plus two_windows "panelC" (VNumber 42)
              [VFunction 7] (mkReplyAndTimeout 7 5000) [] eq_refl)
    as [Hun _].
  destruct (@send_reply_errors ipc_plus two_windows "panelA" (VNumber 42)
              [VFunction 7] (mkReplyAndTimeout 7 5000) [] eq_refl)
    as [_ Hown].
  split.
  - apply Hun, two_windows_unowned_panelC.
  - apply (Hown two_windows_consistent 1%N two_windows_owns_panelA);
      [discriminate | reflexivity].
Defined.

Lemma send_lookup_before_type_check_witness :
  typeof (VObject 0) ≠ "string"
  ∧ unowned "panelC" two_windows
  ∧ effects (@send ipc_plus "panelC" (VObject 0) [VFunction 7; VNumber 100]
                   two_windows).2
    = [Call 7 [ErrorNoPanel "panelC" (VObject 0)]].
Proof.
  split; [discriminate|]. split; [apply two_windows_unowned_panelC|].
  destruct (@send_lookup_before_type_check ipc_plus two_windows "panelC"
              (VObject 0) [VFunction 7; VNumber 100]
              (mkReplyAndTimeout 7 100) [] ltac:(discriminate)
              two_windows_unowned_panelC eq_refl)
    as [_ Heff].
  exact Heff.
Defined.

(** * Further properties of the registry *)

Lemma unowned_not_owns p s : unowned p s ↔ ∀ w, ¬ owns w p s.
Proof.
  split.
  - intros Hun w [l [Hl Hp]]. by apply (Hun w l).
  - intros Hno w l Hl Hp. apply (Hno w). by exists l.
Qed.

Lemma findWindow_ext q s s' :
  consistent s → consistent s' →
  (∀ w, owns w q s' ↔ owns w q s) →
  findWindow q s' = findWindow q s.
Proof.
  intros Hc Hc' Heq. destruct (findWindow q s) as [w|] eqn:E.
  - apply findWindow_Some in E as [_ Hown].
    apply findWindow_owner; [done | by apply Heq].
  - apply findWindow_unowned, unowned_not_owns. intros w Hown.
    apply findWindow_None in E; [|apply Hc].
    apply (proj1 (unowned_not_owns q s) E w). by apply Heq.
Qed.

Lemma on_remove_windows w p s : windows (on_remove w p s).2 = windows s.
Proof.
  unfold on_remove. destruct (fromWebContents w s); simpl; [|done].
  destruct (_winID2panelIDs s !! _); simpl; [|done].
  by destruct (indexOf p _).
Qed.

Lemma on_clear_windows w s : windows (on_clear w s).2 = windows s.
Proof.
  unfold on_clear. destruct (fromWebContents w s); simpl; [|done].
  by destruct (_winID2panelIDs s !! _).
Qed.

Lemma on_clear_entry w l s :
  w ∈ windows s → getPanels w s = Some l →
  on_clear w s
  = (Return tt, set_winID2panelIDs (delete w (_winID2panelIDs s)) s).
Proof.
  unfold getPanels, on_clear, fromWebContents. intros Hw Hl.
  rewrite decide_True by done. by rewrite Hl.
Qed.

Lemma delete_unowned w p s r :
  unique_owner s → owns w p s →
  _winID2panelIDs r = delete w (_winID2panelIDs s) → unowned p r.
Proof.
  intros [Huniq _] [l [Hl Hp]] Hr w' l' Hl' Hp'. rewrite Hr in Hl'.
  apply lookup_delete_Some in Hl' as [Hne Hl'].
  apply Hne. eapply Huniq; eauto.
Qed.

Lemma add_fresh_found w p s :
  consistent s → unowned p s → w ∈ windows s →
  findWindow p (on_add w p s).2 = Some w.
Proof.
  intros Hc Hun Hw. apply findWindow_owner; [by apply on_add_consistent|].
  by apply on_add_unowned_owns.
Qed.

(** X1.  A clear message from an existing window: without an entry for the
    window it only logs "window not found"; with an entry it deletes that
    entry and nothing else, logs nothing, and, when every panel had a single
    owner, leaves each panel of the window without a window. *)
Theorem on_clear_spec (s : State) (w : N) :
  w ∈ windows s →
  (getPanels w s = None →
     on_clear w s = (Return tt, console_error (ClearWindowNotFound w) s))
  ∧ (∀ l, getPanels w s = Some l →
       on_clear w s
       = (Return tt, set_winID2panelIDs (delete w (_winID2panelIDs s)) s)
       ∧ getPanels w (on_clear w s).2 = None
       ∧ (∀ w', w' ≠ w → getPanels w' (on_clear w s).2 = getPanels w' s)
       ∧ (unique_owner s → ∀ p, p ∈ l → findWindow p (on_clear w s).2 = None)).
Proof.
  intros Hw. split.
  - unfold getPanels, on_clear, fromWebContents. intros Hnone.
    rewrite decide_True by done. by rewrite Hnone.
  - intros l Hl. rewrite (on_clear_entry w l s Hw Hl). simpl.
    split; [done|]. unfold getPanels. simpl. split; [|split].
    + apply lookup_delete_eq.
    + intros w' Hne. by apply lookup_delete_ne.
    + intros Huniq p Hp. apply findWindow_unowned.
      apply (delete_unowned w p s); [done | by exists l | done].
Qed.

(** X2.  A panel id that its window gave up can be registered again.  In a
    consistent state where existing window [w] holds [p], after a remove of
    [p] from [w], after a clear from [w], or after [w] was closed, an add of
    [p] from an existing window [w2] succeeds and [findWindow] answers
    [w2]. *)
Theorem register_again (s : State) (w w2 : N) (p : string) :
  consistent s → owns w p s → w ∈ windows s → w2 ∈ windows s →
  findWindow p (on_add w2 p (on_remove w p s).2).2 = Some w2
  ∧ findWindow p (on_add w2 p (on_clear w s).2).2 = Some w2
  ∧ (w2 ≠ w → findWindow p (on_add w2 p (closed w s)).2 = Some w2).
Proof.
  intros Hc Hown Hw Hw2. split; [|split].
  - apply add_fresh_found.
    + by apply on_remove_consistent.
    + by apply remove_then_unowned.
    + by rewrite on_remove_windows.
  - apply add_fresh_found.
    + by apply on_clear_consistent.
    + destruct Hown as [l [Hl Hp]].
      apply (delete_unowned w p s); [apply Hc | by exists l |].
      by rewrite (on_clear_entry w l s Hw Hl).
    + by rewrite on_clear_windows.
  - intros Hne. apply add_fresh_found.
    + by apply closed_consistent.
    + apply (delete_unowned w p s); [apply Hc | done | done].
    + simpl. apply elem_of_difference. split; [done|].
      by intros ->%elem_of_singleton.
Qed.

(** X3.  After any sequence of events from an empty registry, [findWindow]
    is exact: it answers [w] just when the array of [w] holds the panel, it
    answers [null] just when no array holds it, and a window that holds a
    panel exists. *)
Theorem findWindow_exact (s0 : State) (es : list registry_event)
    (p : string) (w : N) :
  _winID2panelIDs s0 = ∅ →
  (findWindow p (run es s0) = Some w ↔ owns w p (run es s0))
  ∧ (findWindow p (run es s0) = None ↔ unowned p (run es s0))
  ∧ (owns w p (run es s0) → w ∈ windows (run es s0)).
Proof.
  intros He. pose proof (reachable_consistent s0 es He) as Hc.
  split; [|split].
  - split; [by intros [_ ?]%findWindow_Some | by apply findWindow_owner].
  - split; [apply findWindow_None, Hc | apply findWindow_unowned].
  - intros [l [Hl _]]. apply Hc. by exists l.
Qed.

Lemma elem_of_splice1 (l : list string) idx p q :
  l !! idx = Some p → q ≠ p → q ∈ splice1 idx l ↔ q ∈ l.
Proof.
  intros Hidx Hne. rewrite <- (take_drop_middle l idx p Hidx) at 2.
  unfold splice1. rewrite !elem_of_app, elem_of_cons. tauto.
Qed.

Lemma owns_on_add w w' p q s :
  q ≠ p → owns w' q (on_add w p s).2 ↔ owns w' q s.
Proof.
  intros Hne. unfold on_add. destruct (findWindow p s); [done|].
  destruct (fromWebContents w s) as [winID|]; [|done].
  unfold owns. simpl. destruct (decide (winID = w')) as [<-|Hw].
  - rewrite lookup_insert_eq. split.
    + intros [l [[= <-] Hq]]. apply elem_of_app in Hq as [Hq|Hq].
      * destruct (_winID2panelIDs s !! winID) as [l|]; simpl in Hq;
          [by exists l | by apply elem_of_nil in Hq].
      * by apply list_elem_of_singleton in Hq.
    + intros [l [Hl Hq]]. eexists. split; [done|]. rewrite Hl. simpl.
      apply elem_of_app. by left.
  - by rewrite lookup_insert_ne.
Qed.

Lemma owns_on_remove w w' p q s :
  q ≠ p → owns w' q (on_remove w p s).2 ↔ owns w' q s.
Proof.
  intros Hne. unfold on_remove.
  destruct (fromWebContents w s) as [winID|]; [|done].
  destruct (_winID2panelIDs s !! winID) as [l|] eqn:El; [|done].
  destruct (indexOf p l) as [idx|] eqn:Ei; [|done].
  apply indexOf_Some in Ei as [Hidx _].
  unfold owns. simpl. destruct (decide (winID = w')) as [<-|Hw].
  - rewrite lookup_insert_eq, El. split.
    + intros [l' [[= <-] Hq]]. exists l. split; [done|].
      by apply (elem_of_splice1 l idx p q).
    + intros [l' [[= <-] Hq]]. eexists. split; [done|].
      by apply (elem_of_splice1 l idx p q).
  - by rewrite lookup_insert_ne.
Qed.

Lemma owns_delete w w' q s r :
  _winID2panelIDs r = delete w (_winID2panelIDs s) → ¬ owns w q s →
  owns w' q r ↔ owns w' q s.
Proof.
  intros Hr Hno. unfold owns. rewrite Hr. split.
  - intros [l [[_ Hl]%lookup_delete_Some Hq]]. by exists l.
  - intros [l [Hl Hq]]. exists l. split; [|done].
    apply lookup_delete_Some. split; [|done].
    intros ->. apply Hno. by exists l.
Qed.

Lemma owns_on_clear w w' q s :
  ¬ owns w q s → owns w' q (on_clear w s).2 ↔ owns w' q s.
Proof.
  intros Hno. unfold on_clear.
  destruct (fromWebContents w s) as [winID|] eqn:E; [|done].
  unfold fromWebContents in E. case_decide; [|done]. injection E as <-.
  destruct (_winID2panelIDs s !! w) as [l|] eqn:El; [|done].
  by apply (owns_delete w).
Qed.

(** X4.  Handlers that concern one panel or one window leave every other
    panel where it was.  In a consistent state, an add or a remove of [p]
    does not change what [findWindow] answers for any other panel [q]; a
    clear from [w] or the closing of [w] does not change it for any panel
    that [w] does not hold. *)
Theorem other_panels_stay (s : State) (w : N) (p q : string) :
  consistent s →
  (q ≠ p →
     findWindow q (on_add w p s).2 = findWindow q s
     ∧ findWindow q (on_remove w p s).2 = findWindow q s)
  ∧ (¬ owns w q s →
     findWindow q (on_clear w s).2 = findWindow q s
     ∧ findWindow q (closed w s) = findWindow q s).
Proof.
  intros Hc. split.
  - intros Hne. split.
    + apply findWindow_ext; [done | by apply on_add_consistent|].
      intros w'. by apply owns_on_add.
    + apply findWindow_ext; [done | by apply on_remove_consistent|].
      intros w'. by apply owns_on_remove.
  - intros Hno. split.
    + apply findWindow_ext; [done | by apply on_clear_consistent|].
      intros w'. by apply owns_on_clear.
    + apply findWindow_ext; [done | by apply closed_consistent|].
      intros w'. by apply (owns_delete w).
Qed.

(** X5.  A window cannot remove a panel of another window.  In a consistent
    state where [w'] holds [p], a remove of [p] sent by a different existing
    window [w] only logs ("panel not found" when [w] has an entry, "window
    not found" when it has none), and [findWindow] still answers [w']. *)
Theorem remove_foreign (s : State) (w w' : N) (p : string) :
  consistent s → owns w' p s → w ≠ w' → w ∈ windows s →
  on_remove w p s
  = (Return tt,
     console_error
       (match getPanels w s with
        | Some _ => RemovePanelNotFound p w
        | None => RemoveWindowNotFound p w
        end) s)
  ∧ findWindow p (on_remove w p s).2 = Some w'.
Proof.
  intros Hc Hown Hne Hw.
  assert (on_remove w p s
          = (Return tt,
             console_error
               (match getPanels w s with
                | Some _ => RemovePanelNotFound p w
                | None => RemoveWindowNotFound p w
                end) s)) as Heq.
  { unfold on_remove, fromWebContents, getPanels.
    rewrite decide_True by done.
    destruct (_winID2panelIDs s !! w) as [l|] eqn:El; [|done].
    assert (p ∉ l) as Hp.
    { intros Hp. apply Hne. destruct Hown as [l' [Hl' Hp']].
      destruct Hc as [_ [Huniq _]]. eapply Huniq; eauto. }
    apply indexOf_None in Hp. by rewrite Hp. }
  split; [done|]. rewrite Heq. simpl.
  apply findWindow_owner; [by apply (consistent_ext s) | done].
Qed.

(** X6.  Add followed by remove.  For a panel that no window holds and an
    existing sender [w], an add and then a remove of the panel leave the
    array of [w] as it was, but as an array: a window that had no entry now
    has an empty one.  Nothing is logged and no other entry changes.  A
    clear from a window that had no entry before then finds the empty array,
    deletes it without logging, and the registry is as at the start. *)
Theorem add_then_remove (s : State) (w : N) (p : string) :
  unowned p s → w ∈ windows s →
  let s2 := (on_remove w p (on_add w p s).2).2 in
  getPanels w s2 = Some (default [] (getPanels w s))
  ∧ (∀ w', w' ≠ w → getPanels w' s2 = getPanels w' s)
  ∧ effects s2 = effects s
  ∧ (getPanels w s = None →
     _winID2panelIDs (on_clear w s2).2 = _winID2panelIDs s
     ∧ effects (on_clear w s2).2 = effects s).
Proof.
  intros Hun Hw s2.
  assert (p ∉ default [] (getPanels w s)) as Hp.
  { unfold getPanels. destruct (_winID2panelIDs s !! w) as [l|] eqn:El; simpl.
    - by apply (Hun w).
    - apply not_elem_of_nil. }
  assert (s2 = set_winID2panelIDs
                 (<[w := default [] (getPanels w s)]> (_winID2panelIDs s)) s)
    as ->.
  { subst s2. rewrite (on_add_unowned w p s Hun Hw). simpl.
    unfold on_remove, fromWebContents. simpl. rewrite decide_True by done.
    rewrite lookup_insert_eq.
    rewrite (indexOf_app_cons p _ [] Hp), splice1_app_cons. simpl.
    unfold set_winID2panelIDs. simpl.
    by rewrite insert_insert_eq, app_nil_r. }
  unfold getPanels. simpl. split; [apply lookup_insert_eq|].
  split; [intros w' Hne; by apply lookup_insert_ne|]. split; [done|].
  intros Hnone. unfold on_clear, fromWebContents. simpl.
  rewrite decide_True by done. rewrite lookup_insert_eq. simpl.
  split; [|done]. by apply delete_insert_id.
Qed.

(** X7.  Once a window is closed, a remove or a clear message that still
    arrives from it throws (the sender has no window to read [.id] from)
    and changes nothing; so does an add, unless the panel is registered, in
    which case the add is refused with the usual log.  *)
Theorem messages_after_closed (s : State) (w : N) (p : string) :
  on_remove w p (closed w s) = (Throw_TypeError, closed w s)
  ∧ on_clear w (closed w s) = (Throw_TypeError, closed w s)
  ∧ (findWindow p (closed w s) = None →
     on_add w p (closed w s) = (Throw_TypeError, closed w s))
  ∧ (∀ w0, findWindow p (closed w s) = Some w0 →
     w0 ≠ w
     ∧ on_add w p (closed w s)
       = (Return tt, console_error (PanelExists p w0) (closed w s))).
Proof.
  assert (w ∉ windows (closed w s)) as Hw.
  { simpl. intros [_ Hn]%elem_of_difference. apply Hn.
    by apply elem_of_singleton. }
  split; [|split; [|split]].
  - unfold on_remove, fromWebContents. by rewrite decide_False.
  - unfold on_clear, fromWebContents. by rewrite decide_False.
  - intros Hf. by apply on_add_no_window.
  - intros w0 Hf. split.
    + apply findWindow_Some in Hf as [Hin _]. by intros ->.
    + unfold on_add. by rewrite Hf.
Qed.

Lemma unowned_on_add w p q s :
  q ≠ p → unowned q s → unowned q (on_add w p s).2.
Proof.
  intros Hne Hun. apply unowned_not_owns. intros w' Hown.
  apply (owns_on_add w w' p q s Hne) in Hown.
  by apply (proj1 (unowned_not_owns q s) Hun w').
Qed.

Lemma adds_in_order w p ps s :
  w ∈ windows s → NoDup (p :: ps) → (∀ q, q ∈ p :: ps → unowned q s) →
  getPanels w (run (Add w <$> p :: ps) s)
  = Some (default [] (getPanels w s) ++ p :: ps).
Proof.
  revert p s. induction ps as [|q ps IH]; intros p s Hw Hnd Hun.
  - simpl. rewrite on_add_unowned; [|apply Hun; left|done].
    unfold getPanels. simpl. apply lookup_insert_eq.
  - change (run (Add w <$> p :: q :: ps) s)
      with (run (Add w <$> q :: ps) (on_add w p s).2).
    apply NoDup_cons in Hnd as [Hp Hnd].
    rewrite IH.
    + rewrite on_add_unowned; [|apply Hun; left|done].
      unfold getPanels. simpl. rewrite lookup_insert_eq. simpl.
      by rewrite <- app_assoc.
    + by rewrite on_add_windows.
    + done.
    + intros r Hr. apply unowned_on_add.
      * intros ->. done.
      * apply Hun. by right.
Qed.

(** X8.  The array of a window lists its panels in the order they were
    registered: after add messages from an existing window [w] for distinct
    panels that no window holds, [getPanels] answers the former array of
    [w] followed by the new panels, in the order of the messages. *)
Theorem panels_in_registration_order (s : State) (w : N) (ps : list string) :
  w ∈ windows s → ps ≠ [] → NoDup ps → (∀ q, q ∈ ps → unowned q s) →
  getPanels w (run (Add w <$> ps) s)
  = Some (default [] (getPanels w s) ++ ps).
Proof.
  intros Hw Hne Hnd Hun. destruct ps as [|p ps]; [done|].
  by apply adds_in_order.
Qed.

(** * Further properties of the dispatcher and the relay *)

Lemma _popReplyAndTimeout_None args :
  (_popReplyAndTimeout args).1 = None →
  _popReplyAndTimeout args = (None, args).
Proof.
  unfold _popReplyAndTimeout. destruct (reverse args) as [|v r]; [done|].
  destruct v; try done. destruct r as [|v r]; [done|]. by destruct v.
Qed.

Lemma _popOptions_None args :
  (_popOptions args).1 = None → _popOptions args = (None, args).
Proof.
  unfold _popOptions. destruct (reverse args) as [|v r]; [done|].
  by destruct v.
Qed.

Lemma findWindow_frame q s s' :
  windows s' = windows s → _winID2panelIDs s' = _winID2panelIDs s →
  findWindow q s' = findWindow q s.
Proof. unfold findWindow, fromId. by intros -> ->. Qed.

Section MoreDispatchProperties.
Context {collaborators : Collaborators}.

(** X9.  A one-way [send]: a string message to a panel that window [w]
    holds, in a consistent state, with no reply function among the trailing
    arguments.  One message is handed to the [webContents] of [w]: the
    channel name, the panel id, the message and all the arguments.  No
    session is opened and the call returns [undefined]; when the transport
    answers [false] the failure is logged after the message was handed
    over, and that is all. *)
Theorem send_one_way (s : State) (w : N) (p msg : string)
    (args : list value) :
  consistent s → owns w p s → (_popReplyAndTimeout args).1 = None →
  send p (VString msg) args s
  = (Return None,
     let wargs :=
       [VString (ipcPlus_id +:+ ":main2panel"); VString p; VString msg]
         ++ args in
     if webContents_send_ok w wargs
     then emit (WebContentsSend w wargs) s
     else console_error (NoResponse (VString msg) p)
                        (emit (WebContentsSend w wargs) s)).
Proof.
  intros Hc Hown Hpop. unfold send, _sendToPanel.
  rewrite (findWindow_owner p s w Hc Hown). simpl.
  rewrite (_popReplyAndTimeout_None args Hpop). cbv zeta.
  by destruct (webContents_send_ok w _).
Qed.

(** X10.  [send] with a reply function as the last argument and no timeout:
    the session and the option object on the wire carry the default timeout
    of 5000 ms, the reply function is taken off the arguments, and the
    session id is returned. *)
Theorem send_default_timeout (s : State) (w : N) (p msg : string)
    (a : list value) (f : N) :
  consistent s → owns w p s →
  let sessionId := (p +:+ "@main") +:+ ":" +:+ pretty (_nextSessionId s) in
  send p (VString msg) (a ++ [VFunction f]) s
  = (Return (Some sessionId),
     mkState (windows s) (_winID2panelIDs s) (N.succ (_nextSessionId s))
       (sessions s ++
          [mkSession sessionId (VString msg) (p +:+ "@main") (UserReply f)
                     (Some 5000) None])
       (effects s ++
          [WebContentsSend w
             ([VString (ipcPlus_id +:+ ":main2panel"); VString p; VString msg]
                ++ a
                ++ [VOption (mkOptions (Some sessionId) true (Some 5000))])])).
Proof.
  intros Hc Hown sessionId. unfold send, _sendToPanel.
  rewrite (findWindow_owner p s w Hc Hown). simpl.
  by rewrite _popReplyAndTimeout_callback.
Qed.

(** X11.  The dispatcher never touches the registry: after [send], after a
    relayed message and after a reply function ran, every window has the
    array it had and [findWindow] answers what it answered. *)
Theorem dispatch_keeps_registry (s : State) (sender : N) (p q : string)
    (m : value) (args replyArgs : list value) (fn : callback) (w : N) :
  (getPanels w (send p m args s).2 = getPanels w s
   ∧ findWindow q (send p m args s).2 = findWindow q s)
  ∧ (getPanels w (_renderer2panelOpts sender p m args s).2 = getPanels w s
     ∧ findWindow q (_renderer2panelOpts sender p m args s).2
       = findWindow q s)
  ∧ (getPanels w (invoke fn replyArgs s) = getPanels w s
     ∧ findWindow q (invoke fn replyArgs s) = findWindow q s).
Proof.
  destruct (send_registry p m args s) as [W1 R1].
  destruct (_renderer2panelOpts_registry sender p m args s) as [W2 R2].
  destruct (invoke_registry fn replyArgs s) as [W3 R3].
  unfold getPanels. rewrite R1, R2, R3.
  repeat split; by apply findWindow_frame.
Qed.

(** X12.  A relayed request that asks for a reply, for a panel that no
    window holds: the session of the main process is opened all the same,
    but nothing is handed to any [webContents] and nothing is logged; the
    sender is not told that the panel does not exist. *)
Theorem relay_unowned (s : State) (sender : N) (p : string) (m : value)
    (a : list value) (o : options) :
  unowned p s → opt_waitForReply o = true →
  _renderer2panelOpts sender p m (a ++ [VOption o]) s
  = (Return tt,
     mkState (windows s) (_winID2panelIDs s) (N.succ (_nextSessionId s))
       (sessions s ++
          [mkSession ((p +:+ "@main") +:+ ":" +:+ pretty (_nextSessionId s))
                     m (p +:+ "@main") (RelayReply sender o)
                     (opt_timeout o) None])
       (effects s)).
Proof.
  intros Hun Hwait.
  assert (∃ v a', a ++ [VOption o] = v :: a') as (v & a' & Hcons).
  { destruct a; simpl; eauto. }
  unfold _renderer2panelOpts. rewrite Hcons, <- Hcons.
  rewrite _popOptions_option, Hwait. simpl. unfold ipcPlus_option.
  rewrite send_option_last. by rewrite findWindow_unowned.
Qed.

(** X13.  A relayed message without a request for a reply is a plain
    [send].  When the last argument is an option object whose
    [waitForReply] is not set, that object is taken off and the remaining
    arguments are sent; when the last argument is no option object, or there
    are no arguments, the arguments are sent as they are.  The relay opens no
    session of its own in these cases, ends in the state that [send] ends
    in, and throws exactly when that [send] throws. *)
Theorem relay_without_wait (s : State) (sender : N) (p : string) (m : value)
    (a args : list value) (o : options) :
  (opt_waitForReply o = false →
     _renderer2panelOpts sender p m (a ++ [VOption o]) s
     = (match (send p m a s).1 with
        | Return _ => Return tt
        | Throw_TypeError => Throw_TypeError
        end,
        (send p m a s).2))
  ∧ ((_popOptions args).1 = None →
     _renderer2panelOpts sender p m args s
     = (match (send p m args s).1 with
        | Return _ => Return tt
        | Throw_TypeError => Throw_TypeError
        end,
        (send p m args s).2)).
Proof.
  split.
  - intros Hwait.
    assert (∃ v a', a ++ [VOption o] = v :: a') as (v & a' & Hcons).
    { destruct a; simpl; eauto. }
    unfold _renderer2panelOpts. rewrite Hcons, <- Hcons.
    rewrite _popOptions_option, Hwait.
    by destruct (send p m a s) as [c s'].
  - intros Hpop. unfold _renderer2panelOpts.
    destruct args as [|v args].
    + by destruct (send p m [] s) as [c s'].
    + rewrite (_popOptions_None _ Hpop).
      by destruct (send p m (v :: args) s) as [c s'].
Qed.

(** X14.  What [send] returns.  In a consistent state it returns a session
    id exactly when some window holds the panel, the message is a string
    and a reply function is among the trailing arguments; it then has
    opened exactly one session, with that id and that reply function.  When
    it returns [undefined] it has opened none.  It throws exactly when some
    window holds the panel and the message is neither a string nor a value
    with a string form for the log line; the state is then as before the
    call. *)
Theorem send_result (s : State) (p : string) (m : value)
    (args : list value) :
  consistent s →
  ((∃ sid, (send p m args s).1 = Return (Some sid))
   ↔ (∃ w, owns w p s) ∧ typeof m = "string"
     ∧ is_Some (_popReplyAndTimeout args).1)
  ∧ (∀ sid, (send p m args s).1 = Return (Some sid) →
     ∃ x opts, sessions (send p m args s).2 = sessions s ++ [x]
               ∧ session_id x = sid
               ∧ (_popReplyAndTimeout args).1 = Some opts
               ∧ session_callback x = UserReply (reply opts)
               ∧ session_timeout x = Some (timeout opts))
  ∧ ((send p m args s).1 = Return None →
     sessions (send p m args s).2 = sessions s)
  ∧ ((send p m args s).1 = Throw_TypeError
     ↔ (∃ w, owns w p s) ∧ typeof m ≠ "string"
       ∧ template_converts m = false)
  ∧ ((send p m args s).1 = Throw_TypeError → (send p m args s).2 = s).
Proof.
  intros Hc. destruct (owned_or_unowned p s) as [[w Hown]|Hun].
  - unfold send, _sendToPanel. rewrite (findWindow_owner p s w Hc Hown).
    case_bool_decide as Hm.
    + destruct (template_converts m) eqn:Hconv; simpl.
      * split; [|split; [done|split; [done|split; [|done]]]].
        -- split; [by intros [sid ?] | by intros (_ & ? & _)].
        -- split; [done | by intros (_ & _ & ?)].
      * split; [|split; [done|split; [done|split; [|done]]]].
        -- split; [by intros [sid ?] | by intros (_ & ? & _)].
        -- split; [intros _ | done]. split; [by exists w | done].
    + destruct (_popReplyAndTimeout args) as [[opts|] rest] eqn:Hpop; simpl.
      * split; [|split; [|split; [done|split; [|done]]]].
        -- split; [intros _ | by eexists].
           split; [by exists w | by split].
        -- intros sid [= <-]. eexists _, opts. by repeat split.
        -- split; [done | by intros (_ & ? & _)].
      * destruct (webContents_send_ok _ _); simpl.
        -- split; [|split; [done|split; [done|split; [|done]]]].
           ++ split; [by intros [sid ?] | by intros (_ & _ & [? ?])].
           ++ split; [done | by intros (_ & ? & _)].
        -- split; [|split; [done|split; [done|split; [|done]]]].
           ++ split; [by intros [sid ?] | by intros (_ & _ & [? ?])].
           ++ split; [done | by intros (_ & ? & _)].
  - unfold send. rewrite (findWindow_unowned p s Hun).
    assert (¬ ∃ w, owns w p s) as Hno.
    { intros [w Hw]. by apply (proj1 (unowned_not_owns p s) Hun w). }
    destruct (_popReplyAndTimeout args) as [[opts|] rest]; simpl.
    + split; [|split; [done|split; [done|split; [|done]]]].
      * split; [by intros [sid ?] | by intros (? & _)].
      * split; [done | by intros (? & _)].
    + split; [|split; [done|split; [done|split; [|done]]]].
      * split; [by intros [sid ?] | by intros (? & _)].
      * split; [done | by intros (? & _)].
Qed.

End MoreDispatchProperties.

(** ** The further properties at concrete inputs *)

Lemma two_windows_unowned_panelD : unowned "panelD" two_windows.
Proof.
  apply findWindow_None; [apply two_windows_consistent | by vm_compute].
Qed.

Lemma two_windows_not_owns_2 q : ¬ owns 2 q two_windows.
Proof.
  intros [l [Hl _]].
  destruct two_windows_panels as (_ & Hnone & _).
  unfold getPanels in Hnone. congruence.
Qed.

Lemma on_clear_spec_witness :
  1%N ∈ windows two_windows
  ∧ on_clear 2 two_windows
    = (Return tt, console_error (ClearWindowNotFound 2) two_windows)
  ∧ getPanels 1 (on_clear 1 two_windows).2 = None
  ∧ findWindow "panelB" (on_clear 1 two_windows).2 = None.
Proof.
  assert (1%N ∈ windows two_windows) as H1 by (apply two_windows_live; by left).
  assert (2%N ∈ windows two_windows) as H2 by (apply two_windows_live; by right).
  split; [done|]. split.
  - destruct (on_clear_spec two_windows 2 H2) as [Hnone _].
    apply Hnone, two_windows_panels.
  - destruct (on_clear_spec two_windows 1 H1) as [_ Hsome].
    destruct (Hsome ["panelA"; "panelB"] (proj1 two_windows_panels))
      as (_ & Hgone & _ & Hlost).
    split; [done|]. apply Hlost; [apply two_windows_consistent|].
    right. left.
Defined.

Lemma register_again_witness :
  consistent two_windows ∧ owns 1 "panelA" two_windows
  ∧ findWindow "panelA"
      (on_add 2 "panelA" (on_remove 1 "panelA" two_windows).2).2 = Some 2%N
  ∧ findWindow "panelA"
      (on_add 2 "panelA" (closed 1 two_windows)).2 = Some 2%N.
Proof.
  split; [apply two_windows_consistent|].
  split; [apply two_windows_owns_panelA|].
  destruct (register_again two_windows 1 2 "panelA" two_windows_consistent
              two_windows_owns_panelA
              (two_windows_live 1 (or_introl eq_refl))
              (two_windows_live 2 (or_intror eq_refl)))
    as (Hrem & _ & Hclosed).
  split; [done|]. by apply Hclosed.
Defined.

Lemma findWindow_exact_witness :
  _winID2panelIDs initial = ∅
  ∧ (findWindow "panelA" two_windows = Some 1%N ↔ owns 1 "panelA" two_windows)
  ∧ (owns 1 "panelA" two_windows → 1%N ∈ windows two_windows).
Proof.
  split; [reflexivity|].
  destruct (findWindow_exact initial
              [BrowserWindowCreated 1; BrowserWindowCreated 2;
               Add 1 "panelA"; Add 1 "panelB"] "panelA" 1 eq_refl)
    as (Hsome & _ & Hlive).
  split; [exact Hsome | exact Hlive].
Defined.

Lemma other_panels_stay_witness :
  consistent two_windows
  ∧ findWindow "panelB" (on_remove 1 "panelA" two_windows).2
    = findWindow "panelB" two_windows
  ∧ findWindow "panelB" (closed 2 two_windows)
    = findWindow "panelB" two_windows.
Proof.
  split; [apply two_windows_consistent|]. split.
  - destruct (other_panels_stay two_windows 1 "panelA" "panelB"
                two_windows_consistent) as [Hpanel _].
    by apply Hpanel.
  - destruct (other_panels_stay two_windows 2 "panelA" "panelB"
                two_windows_consistent) as [_ Hwindow].
    apply Hwindow, two_windows_not_owns_2.
Defined.

Lemma remove_foreign_witness :
  consistent two_windows ∧ owns 1 "panelA" two_windows
  ∧ 2%N ≠ 1%N ∧ 2%N ∈ windows two_windows
  ∧ findWindow "panelA" (on_remove 2 "panelA" two_windows).2 = Some 1%N.
Proof.
  assert (2%N ∈ windows two_windows) as H2 by (apply two_windows_live; by right).
  split; [apply two_windows_consistent|].
  split; [apply two_windows_owns_panelA|].
  split; [done|]. split; [done|].
  apply (remove_foreign two_windows 2 1 "panelA" two_windows_consistent
           two_windows_owns_panelA ltac:(done) H2).
Defined.

Lemma add_then_remove_witness :
  unowned "panelC" two_windows ∧ 2%N ∈ windows two_windows
  ∧ getPanels 2 (on_remove 2 "panelC" (on_add 2 "panelC" two_windows).2).2
    = Some (default [] (getPanels 2 two_windows))
  ∧ getPanels 2 two_windows = None.
Proof.
  assert (2%N ∈ windows two_windows) as H2 by (apply two_windows_live; by right).
  split; [apply two_windows_unowned_panelC|]. split; [done|]. split.
  - apply (add_then_remove two_windows 2 "panelC"
             two_windows_unowned_panelC H2).
  - apply two_windows_panels.
Defined.

Lemma messages_after_closed_witness :
  findWindow "panelC" (closed 1 two_windows) = None
  ∧ on_add 1 "panelC" (closed 1 two_windows)
    = (Throw_TypeError, closed 1 two_windows)
  ∧ on_remove 1 "panelA" (closed 1 two_windows)
    = (Throw_TypeError, closed 1 two_windows).
Proof.
  assert (findWindow "panelC" (closed 1 two_windows) = None) as Hf
    by by vm_compute.
  split; [done|]. split.
  - destruct (messages_after_closed two_windows 1 "panelC")
      as (_ & _ & Hadd & _).
    by apply Hadd.
  - by destruct (messages_after_closed two_windows 1 "panelA") as (Hrem & _).
Defined.

Lemma panels_in_registration_order_witness :
  2%N ∈ windows two_windows
  ∧ getPanels 2 (run [Add 2 "panelC"; Add 2 "panelD"] two_windows)
    = Some (default [] (getPanels 2 two_windows) ++ ["panelC"; "panelD"]).
Proof.
  assert (2%N ∈ windows two_windows) as H2 by (apply two_windows_live; by right).
  split; [done|].
  apply (panels_in_registration_order two_windows 2 ["panelC"; "panelD"] H2).
  - done.
  - apply NoDup_cons. split.
    + by intros ?%list_elem_of_singleton.
    + apply NoDup_singleton.
  - intros q [->|[->|Hq]%elem_of_cons]%elem_of_cons.
    + apply two_windows_unowned_panelC.
    + apply two_windows_unowned_panelD.
    + by apply elem_of_nil in Hq.
Defined.

Lemma send_one_way_witness :
  consistent two_windows ∧ owns 1 "panelA" two_windows
  ∧ (_popReplyAndTimeout [VNumber 1]).1 = None
  ∧ @send ipc_plus "panelA" (VString "say-hello") [VNumber 1] two_windows
    = (Return None,
       emit (WebContentsSend 1
               [VString "ipc-plus:main2panel"; VString "panelA";
                VString "say-hello"; VNumber 1]) two_windows).
Proof.
  split; [apply two_windows_consistent|].
  split; [apply two_windows_owns_panelA|]. split; [reflexivity|].
  apply (@send_one_way ipc_plus two_windows 1 "panelA" "say-hello"
           [VNumber 1] two_windows_consistent two_windows_owns_panelA
           eq_refl).
Defined.

Lemma send_default_timeout_witness :
  consistent two_windows ∧ owns 1 "panelA" two_windows
  ∧ (@send ipc_plus "panelA" (VString "say-hello")
           ([VNumber 1] ++ [VFunction 7]) two_windows).1
    = Return (Some "panelA@main:0").
Proof.
  split; [apply two_windows_consistent|].
  split; [apply two_windows_owns_panelA|].
  rewrite (@send_default_timeout ipc_plus two_windows 1 "panelA" "say-hello"
             [VNumber 1] 7 two_windows_consistent two_windows_owns_panelA).
  reflexivity.
Defined.

Lemma relay_unowned_witness :
  unowned "panelC" two_windows ∧ opt_waitForReply renderer_opts = true
  ∧ effects (@_renderer2panelOpts ipc_plus 2 "panelC" (VString "say-hello")
               ([VNumber 1] ++ [VOption renderer_opts]) two_windows).2
    = effects two_windows.
Proof.
  split; [apply two_windows_unowned_panelC|]. split; [reflexivity|].
  rewrite (@relay_unowned ipc_plus two_windows 2 "panelC" (VString "say-hello")
             [VNumber 1] renderer_opts two_windows_unowned_panelC eq_refl).
  reflexivity.
Defined.

Lemma relay_without_wait_witness :
  opt_waitForReply (mkOptions None false None) = false
  ∧ @_renderer2panelOpts ipc_plus 2 "panelA" (VString "say-hello")
      ([VNumber 1] ++ [VOption (mkOptions None false None)]) two_windows
    = (Return tt,
       (@send ipc_plus "panelA" (VString "say-hello") [VNumber 1]
              two_windows).2)
  ∧ @_renderer2panelOpts ipc_plus 2 "panelA" (VString "say-hello") []
      two_windows
    = (Return tt,
       (@send ipc_plus "panelA" (VString "say-hello") [] two_windows).2).
Proof.
  split; [reflexivity|]. split.
  - destruct (@relay_without_wait ipc_plus two_windows 2 "panelA"
                (VString "say-hello") [VNumber 1] []
                (mkOptions None false None)) as [Hopt _].
    by apply Hopt.
  - destruct (@relay_without_wait ipc_plus two_windows 2 "panelA"
                (VString "say-hello") [] []
                (mkOptions None false None)) as [_ Hplain].
    by apply Hplain.
Defined.

Lemma send_result_witness :
  consistent two_windows
  ∧ (∃ sid, (@send ipc_plus "panelA" (VString "say-hello") [VFunction 7]
                   two_windows).1 = Return (Some sid))
  ∧ ¬ (∃ sid, (@send ipc_plus "panelC" (VString "say-hello") [VFunction 7]
                     two_windows).1 = Return (Some sid))
  ∧ (@send ipc_plus "panelA" (VBareObject 0) [VFunction 7] two_windows).1
    = Throw_TypeError.
Proof.
  split; [apply two_windows_consistent|]. split; [|split].
  3:{ destruct (@send_result ipc_plus two_windows "panelA" (VBareObject 0)
                  [VFunction 7] two_windows_consistent)
        as (_ & _ & _ & Hthrow & _).
      apply Hthrow. split; [|split].
      - exists 1%N. apply two_windows_owns_panelA.
      - discriminate.
      - reflexivity. }
  - destruct (@send_result ipc_plus two_windows "panelA" (VString "say-hello")
                [VFunction 7] two_windows_consistent) as [Hiff _].
    apply Hiff. split; [|split].
    + exists 1%N. apply two_windows_owns_panelA.
    + reflexivity.
    + by eexists.
  - destruct (@send_result ipc_plus two_windows "panelC" (VString "say-hello")
                [VFunction 7] two_windows_consistent) as [Hiff _].
    intros Hsid. apply Hiff in Hsid as [[w Hw] _].
    by apply (proj1 (unowned_not_owns _ _) two_windows_unowned_panelC w).
Defined.
